(** * PriceAnalyzer (project.py): a shallow embedding and its properties

    The development follows [src/project.py]: the Python builtins the
    program calls ([str.lower], [str.strip], [in], [float], [/],
    [sorted], [os.path.join], [csv.DictReader], [repr] and [format] of a
    float) are modelled in the modules [Py], [OsPath], [Csv] and [Fmt];
    the methods [load_prices] and [find_text] of class [PriceAnalyzer]
    are translated line by line in module [PA], [export_to_html] in
    module [Html], [interactive_search] in module [Shell] and the main
    program in module [Main].  Python floats are IEEE binary64 values,
    taken from the Standard Library's [SpecFloat]; Python strings are
    lists of Unicode code points; exceptions are the results of an error
    monad, or travel next to the state where what was done before them
    stays done; the catalog, the log and the files opened are threaded as
    a state. *)

From Stdlib Require Import ZArith NArith List String Ascii Bool Lia.
From Stdlib Require Import Sorting.Sorted Sorting.Permutation.
From Stdlib Require Import Floats.SpecFloat.
From stdpp Require Import base option list sorting gmap.
Import ListNotations.

(** Python [str]: a sequence of Unicode code points. *)
Abbreviation str := (list N).

(* ================================================================= *)
(** ** Python builtins *)

Module Py.

Local Open Scope N_scope.

(** *** String literals

    The source file is UTF-8; a literal is written here as a Rocq
    string (its UTF-8 bytes) and decoded to code points. *)

Fixpoint utf8_decode (bs : list N) : str :=
  match bs with
  | [] => []
  | b0 :: r0 =>
      if b0 <? 0x80 then b0 :: utf8_decode r0
      else if b0 <? 0xE0 then
        match r0 with
        | b1 :: r1 =>
            N.lor (N.shiftl (N.land b0 0x1F) 6) (N.land b1 0x3F)
              :: utf8_decode r1
        | _ => []
        end
      else if b0 <? 0xF0 then
        match r0 with
        | b1 :: b2 :: r2 =>
            N.lor (N.shiftl (N.land b0 0x0F) 12)
              (N.lor (N.shiftl (N.land b1 0x3F) 6) (N.land b2 0x3F))
              :: utf8_decode r2
        | _ => []
        end
      else
        match r0 with
        | b1 :: b2 :: b3 :: r3 =>
            N.lor (N.shiftl (N.land b0 0x07) 18)
              (N.lor (N.shiftl (N.land b1 0x3F) 12)
                 (N.lor (N.shiftl (N.land b2 0x3F) 6) (N.land b3 0x3F)))
              :: utf8_decode r3
        | _ => []
        end
  end.

Definition lit (s : string) : str :=
  utf8_decode (map N_of_ascii (list_ascii_of_string s)).

(** *** [str.lower]

    As CPython does it ([do_lower] of [unicodeobject.c]): every code
    point gives its full lower-case mapping of the Unicode character
    database (version 14.0, the one of CPython 3.11), which is one code
    point, or two for U+0130; the capital sigma U+03A3 gives the final
    form U+03C2 where it ends a word and U+03C3 elsewhere
    ([handle_capital_sigma]).  A code point with no mapping is left as it
    is. *)

Definition between (lo hi c : N) : bool := (lo <=? c) && (c <=? hi).

(** The simple lower-case mappings: [(lo, hi, step, to)] sends the code
    points [lo], [lo + step], ... up to [hi] to [to], [to + step], ... *)
Definition lower_ranges : list (N * N * N * N) :=
  [
    (0x41, 0x5A, 1, 0x61); (0xC0, 0xD6, 1, 0xE0); (0xD8, 0xDE, 1, 0xF8);
    (0x100, 0x12E, 2, 0x101); (0x132, 0x136, 2, 0x133);
    (0x139, 0x147, 2, 0x13A); (0x14A, 0x176, 2, 0x14B);
    (0x178, 0x178, 1, 0xFF); (0x179, 0x17D, 2, 0x17A);
    (0x181, 0x181, 1, 0x253); (0x182, 0x184, 2, 0x183);
    (0x186, 0x186, 1, 0x254); (0x187, 0x187, 1, 0x188);
    (0x189, 0x18A, 1, 0x256); (0x18B, 0x18B, 1, 0x18C);
    (0x18E, 0x18E, 1, 0x1DD); (0x18F, 0x18F, 1, 0x259);
    (0x190, 0x190, 1, 0x25B); (0x191, 0x191, 1, 0x192);
    (0x193, 0x193, 1, 0x260); (0x194, 0x194, 1, 0x263);
    (0x196, 0x196, 1, 0x269); (0x197, 0x197, 1, 0x268);
    (0x198, 0x198, 1, 0x199); (0x19C, 0x19C, 1, 0x26F);
    (0x19D, 0x19D, 1, 0x272); (0x19F, 0x19F, 1, 0x275);
    (0x1A0, 0x1A4, 2, 0x1A1); (0x1A6, 0x1A6, 1, 0x280);
    (0x1A7, 0x1A7, 1, 0x1A8); (0x1A9, 0x1A9, 1, 0x283);
    (0x1AC, 0x1AC, 1, 0x1AD); (0x1AE, 0x1AE, 1, 0x288);
    (0x1AF, 0x1AF, 1, 0x1B0); (0x1B1, 0x1B2, 1, 0x28A);
    (0x1B3, 0x1B5, 2, 0x1B4); (0x1B7, 0x1B7, 1, 0x292);
    (0x1B8, 0x1B8, 1, 0x1B9); (0x1BC, 0x1BC, 1, 0x1BD);
    (0x1C4, 0x1C4, 1, 0x1C6); (0x1C5, 0x1C5, 1, 0x1C6);
    (0x1C7, 0x1C7, 1, 0x1C9); (0x1C8, 0x1C8, 1, 0x1C9);
    (0x1CA, 0x1CA, 1, 0x1CC); (0x1CB, 0x1DB, 2, 0x1CC);
    (0x1DE, 0x1EE, 2, 0x1DF); (0x1F1, 0x1F1, 1, 0x1F3);
    (0x1F2, 0x1F4, 2, 0x1F3); (0x1F6, 0x1F6, 1, 0x195);
    (0x1F7, 0x1F7, 1, 0x1BF); (0x1F8, 0x21E, 2, 0x1F9);
    (0x220, 0x220, 1, 0x19E); (0x222, 0x232, 2, 0x223);
    (0x23A, 0x23A, 1, 0x2C65); (0x23B, 0x23B, 1, 0x23C);
    (0x23D, 0x23D, 1, 0x19A); (0x23E, 0x23E, 1, 0x2C66);
    (0x241, 0x241, 1, 0x242); (0x243, 0x243, 1, 0x180);
    (0x244, 0x244, 1, 0x289); (0x245, 0x245, 1, 0x28C);
    (0x246, 0x24E, 2, 0x247); (0x370, 0x372, 2, 0x371);
    (0x376, 0x376, 1, 0x377); (0x37F, 0x37F, 1, 0x3F3);
    (0x386, 0x386, 1, 0x3AC); (0x388, 0x38A, 1, 0x3AD);
    (0x38C, 0x38C, 1, 0x3CC); (0x38E, 0x38F, 1, 0x3CD);
    (0x391, 0x3A1, 1, 0x3B1); (0x3A3, 0x3AB, 1, 0x3C3);
    (0x3CF, 0x3CF, 1, 0x3D7); (0x3D8, 0x3EE, 2, 0x3D9);
    (0x3F4, 0x3F4, 1, 0x3B8); (0x3F7, 0x3F7, 1, 0x3F8);
    (0x3F9, 0x3F9, 1, 0x3F2); (0x3FA, 0x3FA, 1, 0x3FB);
    (0x3FD, 0x3FF, 1, 0x37B); (0x400, 0x40F, 1, 0x450);
    (0x410, 0x42F, 1, 0x430); (0x460, 0x480, 2, 0x461);
    (0x48A, 0x4BE, 2, 0x48B); (0x4C0, 0x4C0, 1, 0x4CF);
    (0x4C1, 0x4CD, 2, 0x4C2); (0x4D0, 0x52E, 2, 0x4D1);
    (0x531, 0x556, 1, 0x561); (0x10A0, 0x10C5, 1, 0x2D00);
    (0x10C7, 0x10C7, 1, 0x2D27); (0x10CD, 0x10CD, 1, 0x2D2D);
    (0x13A0, 0x13EF, 1, 0xAB70); (0x13F0, 0x13F5, 1, 0x13F8);
    (0x1C90, 0x1CBA, 1, 0x10D0); (0x1CBD, 0x1CBF, 1, 0x10FD);
    (0x1E00, 0x1E94, 2, 0x1E01); (0x1E9E, 0x1E9E, 1, 0xDF);
    (0x1EA0, 0x1EFE, 2, 0x1EA1); (0x1F08, 0x1F0F, 1, 0x1F00);
    (0x1F18, 0x1F1D, 1, 0x1F10); (0x1F28, 0x1F2F, 1, 0x1F20);
    (0x1F38, 0x1F3F, 1, 0x1F30); (0x1F48, 0x1F4D, 1, 0x1F40);
    (0x1F59, 0x1F5F, 2, 0x1F51); (0x1F68, 0x1F6F, 1, 0x1F60);
    (0x1F88, 0x1F8F, 1, 0x1F80); (0x1F98, 0x1F9F, 1, 0x1F90);
    (0x1FA8, 0x1FAF, 1, 0x1FA0); (0x1FB8, 0x1FB9, 1, 0x1FB0);
    (0x1FBA, 0x1FBB, 1, 0x1F70); (0x1FBC, 0x1FBC, 1, 0x1FB3);
    (0x1FC8, 0x1FCB, 1, 0x1F72); (0x1FCC, 0x1FCC, 1, 0x1FC3);
    (0x1FD8, 0x1FD9, 1, 0x1FD0); (0x1FDA, 0x1FDB, 1, 0x1F76);
    (0x1FE8, 0x1FE9, 1, 0x1FE0); (0x1FEA, 0x1FEB, 1, 0x1F7A);
    (0x1FEC, 0x1FEC, 1, 0x1FE5); (0x1FF8, 0x1FF9, 1, 0x1F78);
    (0x1FFA, 0x1FFB, 1, 0x1F7C); (0x1FFC, 0x1FFC, 1, 0x1FF3);
    (0x2126, 0x2126, 1, 0x3C9); (0x212A, 0x212A, 1, 0x6B);
    (0x212B, 0x212B, 1, 0xE5); (0x2132, 0x2132, 1, 0x214E);
    (0x2160, 0x216F, 1, 0x2170); (0x2183, 0x2183, 1, 0x2184);
    (0x24B6, 0x24CF, 1, 0x24D0); (0x2C00, 0x2C2F, 1, 0x2C30);
    (0x2C60, 0x2C60, 1, 0x2C61); (0x2C62, 0x2C62, 1, 0x26B);
    (0x2C63, 0x2C63, 1, 0x1D7D); (0x2C64, 0x2C64, 1, 0x27D);
    (0x2C67, 0x2C6B, 2, 0x2C68); (0x2C6D, 0x2C6D, 1, 0x251);
    (0x2C6E, 0x2C6E, 1, 0x271); (0x2C6F, 0x2C6F, 1, 0x250);
    (0x2C70, 0x2C70, 1, 0x252); (0x2C72, 0x2C72, 1, 0x2C73);
    (0x2C75, 0x2C75, 1, 0x2C76); (0x2C7E, 0x2C7F, 1, 0x23F);
    (0x2C80, 0x2CE2, 2, 0x2C81); (0x2CEB, 0x2CED, 2, 0x2CEC);
    (0x2CF2, 0x2CF2, 1, 0x2CF3); (0xA640, 0xA66C, 2, 0xA641);
    (0xA680, 0xA69A, 2, 0xA681); (0xA722, 0xA72E, 2, 0xA723);
    (0xA732, 0xA76E, 2, 0xA733); (0xA779, 0xA77B, 2, 0xA77A);
    (0xA77D, 0xA77D, 1, 0x1D79); (0xA77E, 0xA786, 2, 0xA77F);
    (0xA78B, 0xA78B, 1, 0xA78C); (0xA78D, 0xA78D, 1, 0x265);
    (0xA790, 0xA792, 2, 0xA791); (0xA796, 0xA7A8, 2, 0xA797);
    (0xA7AA, 0xA7AA, 1, 0x266); (0xA7AB, 0xA7AB, 1, 0x25C);
    (0xA7AC, 0xA7AC, 1, 0x261); (0xA7AD, 0xA7AD, 1, 0x26C);
    (0xA7AE, 0xA7AE, 1, 0x26A); (0xA7B0, 0xA7B0, 1, 0x29E);
    (0xA7B1, 0xA7B1, 1, 0x287); (0xA7B2, 0xA7B2, 1, 0x29D);
    (0xA7B3, 0xA7B3, 1, 0xAB53); (0xA7B4, 0xA7C2, 2, 0xA7B5);
    (0xA7C4, 0xA7C4, 1, 0xA794); (0xA7C5, 0xA7C5, 1, 0x282);
    (0xA7C6, 0xA7C6, 1, 0x1D8E); (0xA7C7, 0xA7C9, 2, 0xA7C8);
    (0xA7D0, 0xA7D0, 1, 0xA7D1); (0xA7D6, 0xA7D8, 2, 0xA7D7);
    (0xA7F5, 0xA7F5, 1, 0xA7F6); (0xFF21, 0xFF3A, 1, 0xFF41);
    (0x10400, 0x10427, 1, 0x10428); (0x104B0, 0x104D3, 1, 0x104D8);
    (0x10570, 0x1057A, 1, 0x10597); (0x1057C, 0x1058A, 1, 0x105A3);
    (0x1058C, 0x10592, 1, 0x105B3); (0x10594, 0x10595, 1, 0x105BB);
    (0x10C80, 0x10CB2, 1, 0x10CC0); (0x118A0, 0x118BF, 1, 0x118C0);
    (0x16E40, 0x16E5F, 1, 0x16E60); (0x1E900, 0x1E921, 1, 0x1E922) ].

Definition in_range (c : N) (r : N * N * N * N) : bool :=
  let '(lo, hi, step, _) := r in
  between lo hi c && ((c - lo) mod step =? 0).

Definition map_range (table : list (N * N * N * N)) (c : N) : option N :=
  match List.find (in_range c) table with
  | Some (lo, _, _, to) => Some (to + (c - lo))
  | None => None
  end.

Definition lower_cp (c : N) : N := default c (map_range lower_ranges c).

(** [_PyUnicode_ToLowerFull] *)
Definition to_lower_full (c : N) : str :=
  if c =? 0x130 then [0x69; 0x307] else [lower_cp c].

(** The code points with the property Case_Ignorable. *)
Definition case_ignorable_ranges : list (N * N) :=
  [
    (0x27, 0x27); (0x2E, 0x2E); (0x3A, 0x3A); (0x5E, 0x5E); (0x60, 0x60);
    (0xA8, 0xA8); (0xAD, 0xAD); (0xAF, 0xAF); (0xB4, 0xB4); (0xB7, 0xB8);
    (0x2B0, 0x36F); (0x374, 0x375); (0x37A, 0x37A); (0x384, 0x385);
    (0x387, 0x387); (0x483, 0x489); (0x559, 0x559); (0x55F, 0x55F);
    (0x591, 0x5BD); (0x5BF, 0x5BF); (0x5C1, 0x5C2); (0x5C4, 0x5C5);
    (0x5C7, 0x5C7); (0x5F4, 0x5F4); (0x600, 0x605); (0x610, 0x61A);
    (0x61C, 0x61C); (0x640, 0x640); (0x64B, 0x65F); (0x670, 0x670);
    (0x6D6, 0x6DD); (0x6DF, 0x6E8); (0x6EA, 0x6ED); (0x70F, 0x70F);
    (0x711, 0x711); (0x730, 0x74A); (0x7A6, 0x7B0); (0x7EB, 0x7F5);
    (0x7FA, 0x7FA); (0x7FD, 0x7FD); (0x816, 0x82D); (0x859, 0x85B);
    (0x888, 0x888); (0x890, 0x891); (0x898, 0x89F); (0x8C9, 0x902);
    (0x93A, 0x93A); (0x93C, 0x93C); (0x941, 0x948); (0x94D, 0x94D);
    (0x951, 0x957); (0x962, 0x963); (0x971, 0x971); (0x981, 0x981);
    (0x9BC, 0x9BC); (0x9C1, 0x9C4); (0x9CD, 0x9CD); (0x9E2, 0x9E3);
    (0x9FE, 0x9FE); (0xA01, 0xA02); (0xA3C, 0xA3C); (0xA41, 0xA42);
    (0xA47, 0xA48); (0xA4B, 0xA4D); (0xA51, 0xA51); (0xA70, 0xA71);
    (0xA75, 0xA75); (0xA81, 0xA82); (0xABC, 0xABC); (0xAC1, 0xAC5);
    (0xAC7, 0xAC8); (0xACD, 0xACD); (0xAE2, 0xAE3); (0xAFA, 0xAFF);
    (0xB01, 0xB01); (0xB3C, 0xB3C); (0xB3F, 0xB3F); (0xB41, 0xB44);
    (0xB4D, 0xB4D); (0xB55, 0xB56); (0xB62, 0xB63); (0xB82, 0xB82);
    (0xBC0, 0xBC0); (0xBCD, 0xBCD); (0xC00, 0xC00); (0xC04, 0xC04);
    (0xC3C, 0xC3C); (0xC3E, 0xC40); (0xC46, 0xC48); (0xC4A, 0xC4D);
    (0xC55, 0xC56); (0xC62, 0xC63); (0xC81, 0xC81); (0xCBC, 0xCBC);
    (0xCBF, 0xCBF); (0xCC6, 0xCC6); (0xCCC, 0xCCD); (0xCE2, 0xCE3);
    (0xD00, 0xD01); (0xD3B, 0xD3C); (0xD41, 0xD44); (0xD4D, 0xD4D);
    (0xD62, 0xD63); (0xD81, 0xD81); (0xDCA, 0xDCA); (0xDD2, 0xDD4);
    (0xDD6, 0xDD6); (0xE31, 0xE31); (0xE34, 0xE3A); (0xE46, 0xE4E);
    (0xEB1, 0xEB1); (0xEB4, 0xEBC); (0xEC6, 0xEC6); (0xEC8, 0xECD);
    (0xF18, 0xF19); (0xF35, 0xF35); (0xF37, 0xF37); (0xF39, 0xF39);
    (0xF71, 0xF7E); (0xF80, 0xF84); (0xF86, 0xF87); (0xF8D, 0xF97);
    (0xF99, 0xFBC); (0xFC6, 0xFC6); (0x102D, 0x1030); (0x1032, 0x1037);
    (0x1039, 0x103A); (0x103D, 0x103E); (0x1058, 0x1059); (0x105E, 0x1060);
    (0x1071, 0x1074); (0x1082, 0x1082); (0x1085, 0x1086); (0x108D, 0x108D);
    (0x109D, 0x109D); (0x10FC, 0x10FC); (0x135D, 0x135F); (0x1712, 0x1714);
    (0x1732, 0x1733); (0x1752, 0x1753); (0x1772, 0x1773); (0x17B4, 0x17B5);
    (0x17B7, 0x17BD); (0x17C6, 0x17C6); (0x17C9, 0x17D3); (0x17D7, 0x17D7);
    (0x17DD, 0x17DD); (0x180B, 0x180F); (0x1843, 0x1843); (0x1885, 0x1886);
    (0x18A9, 0x18A9); (0x1920, 0x1922); (0x1927, 0x1928); (0x1932, 0x1932);
    (0x1939, 0x193B); (0x1A17, 0x1A18); (0x1A1B, 0x1A1B); (0x1A56, 0x1A56);
    (0x1A58, 0x1A5E); (0x1A60, 0x1A60); (0x1A62, 0x1A62); (0x1A65, 0x1A6C);
    (0x1A73, 0x1A7C); (0x1A7F, 0x1A7F); (0x1AA7, 0x1AA7); (0x1AB0, 0x1ACE);
    (0x1B00, 0x1B03); (0x1B34, 0x1B34); (0x1B36, 0x1B3A); (0x1B3C, 0x1B3C);
    (0x1B42, 0x1B42); (0x1B6B, 0x1B73); (0x1B80, 0x1B81); (0x1BA2, 0x1BA5);
    (0x1BA8, 0x1BA9); (0x1BAB, 0x1BAD); (0x1BE6, 0x1BE6); (0x1BE8, 0x1BE9);
    (0x1BED, 0x1BED); (0x1BEF, 0x1BF1); (0x1C2C, 0x1C33); (0x1C36, 0x1C37);
    (0x1C78, 0x1C7D); (0x1CD0, 0x1CD2); (0x1CD4, 0x1CE0); (0x1CE2, 0x1CE8);
    (0x1CED, 0x1CED); (0x1CF4, 0x1CF4); (0x1CF8, 0x1CF9); (0x1D2C, 0x1D6A);
    (0x1D78, 0x1D78); (0x1D9B, 0x1DFF); (0x1FBD, 0x1FBD); (0x1FBF, 0x1FC1);
    (0x1FCD, 0x1FCF); (0x1FDD, 0x1FDF); (0x1FED, 0x1FEF); (0x1FFD, 0x1FFE);
    (0x200B, 0x200F); (0x2018, 0x2019); (0x2024, 0x2024); (0x2027, 0x2027);
    (0x202A, 0x202E); (0x2060, 0x2064); (0x2066, 0x206F); (0x2071, 0x2071);
    (0x207F, 0x207F); (0x2090, 0x209C); (0x20D0, 0x20F0); (0x2C7C, 0x2C7D);
    (0x2CEF, 0x2CF1); (0x2D6F, 0x2D6F); (0x2D7F, 0x2D7F); (0x2DE0, 0x2DFF);
    (0x2E2F, 0x2E2F); (0x3005, 0x3005); (0x302A, 0x302D); (0x3031, 0x3035);
    (0x303B, 0x303B); (0x3099, 0x309E); (0x30FC, 0x30FE); (0xA015, 0xA015);
    (0xA4F8, 0xA4FD); (0xA60C, 0xA60C); (0xA66F, 0xA672); (0xA674, 0xA67D);
    (0xA67F, 0xA67F); (0xA69C, 0xA69F); (0xA6F0, 0xA6F1); (0xA700, 0xA721);
    (0xA770, 0xA770); (0xA788, 0xA78A); (0xA7F2, 0xA7F4); (0xA7F8, 0xA7F9);
    (0xA802, 0xA802); (0xA806, 0xA806); (0xA80B, 0xA80B); (0xA825, 0xA826);
    (0xA82C, 0xA82C); (0xA8C4, 0xA8C5); (0xA8E0, 0xA8F1); (0xA8FF, 0xA8FF);
    (0xA926, 0xA92D); (0xA947, 0xA951); (0xA980, 0xA982); (0xA9B3, 0xA9B3);
    (0xA9B6, 0xA9B9); (0xA9BC, 0xA9BD); (0xA9CF, 0xA9CF); (0xA9E5, 0xA9E6);
    (0xAA29, 0xAA2E); (0xAA31, 0xAA32); (0xAA35, 0xAA36); (0xAA43, 0xAA43);
    (0xAA4C, 0xAA4C); (0xAA70, 0xAA70); (0xAA7C, 0xAA7C); (0xAAB0, 0xAAB0);
    (0xAAB2, 0xAAB4); (0xAAB7, 0xAAB8); (0xAABE, 0xAABF); (0xAAC1, 0xAAC1);
    (0xAADD, 0xAADD); (0xAAEC, 0xAAED); (0xAAF3, 0xAAF4); (0xAAF6, 0xAAF6);
    (0xAB5B, 0xAB5F); (0xAB69, 0xAB6B); (0xABE5, 0xABE5); (0xABE8, 0xABE8);
    (0xABED, 0xABED); (0xFB1E, 0xFB1E); (0xFBB2, 0xFBC2); (0xFE00, 0xFE0F);
    (0xFE13, 0xFE13); (0xFE20, 0xFE2F); (0xFE52, 0xFE52); (0xFE55, 0xFE55);
    (0xFEFF, 0xFEFF); (0xFF07, 0xFF07); (0xFF0E, 0xFF0E); (0xFF1A, 0xFF1A);
    (0xFF3E, 0xFF3E); (0xFF40, 0xFF40); (0xFF70, 0xFF70); (0xFF9E, 0xFF9F);
    (0xFFE3, 0xFFE3); (0xFFF9, 0xFFFB); (0x101FD, 0x101FD);
    (0x102E0, 0x102E0); (0x10376, 0x1037A); (0x10780, 0x10785);
    (0x10787, 0x107B0); (0x107B2, 0x107BA); (0x10A01, 0x10A03);
    (0x10A05, 0x10A06); (0x10A0C, 0x10A0F); (0x10A38, 0x10A3A);
    (0x10A3F, 0x10A3F); (0x10AE5, 0x10AE6); (0x10D24, 0x10D27);
    (0x10EAB, 0x10EAC); (0x10F46, 0x10F50); (0x10F82, 0x10F85);
    (0x11001, 0x11001); (0x11038, 0x11046); (0x11070, 0x11070);
    (0x11073, 0x11074); (0x1107F, 0x11081); (0x110B3, 0x110B6);
    (0x110B9, 0x110BA); (0x110BD, 0x110BD); (0x110C2, 0x110C2);
    (0x110CD, 0x110CD); (0x11100, 0x11102); (0x11127, 0x1112B);
    (0x1112D, 0x11134); (0x11173, 0x11173); (0x11180, 0x11181);
    (0x111B6, 0x111BE); (0x111C9, 0x111CC); (0x111CF, 0x111CF);
    (0x1122F, 0x11231); (0x11234, 0x11234); (0x11236, 0x11237);
    (0x1123E, 0x1123E); (0x112DF, 0x112DF); (0x112E3, 0x112EA);
    (0x11300, 0x11301); (0x1133B, 0x1133C); (0x11340, 0x11340);
    (0x11366, 0x1136C); (0x11370, 0x11374); (0x11438, 0x1143F);
    (0x11442, 0x11444); (0x11446, 0x11446); (0x1145E, 0x1145E);
    (0x114B3, 0x114B8); (0x114BA, 0x114BA); (0x114BF, 0x114C0);
    (0x114C2, 0x114C3); (0x115B2, 0x115B5); (0x115BC, 0x115BD);
    (0x115BF, 0x115C0); (0x115DC, 0x115DD); (0x11633, 0x1163A);
    (0x1163D, 0x1163D); (0x1163F, 0x11640); (0x116AB, 0x116AB);
    (0x116AD, 0x116AD); (0x116B0, 0x116B5); (0x116B7, 0x116B7);
    (0x1171D, 0x1171F); (0x11722, 0x11725); (0x11727, 0x1172B);
    (0x1182F, 0x11837); (0x11839, 0x1183A); (0x1193B, 0x1193C);
    (0x1193E, 0x1193E); (0x11943, 0x11943); (0x119D4, 0x119D7);
    (0x119DA, 0x119DB); (0x119E0, 0x119E0); (0x11A01, 0x11A0A);
    (0x11A33, 0x11A38); (0x11A3B, 0x11A3E); (0x11A47, 0x11A47);
    (0x11A51, 0x11A56); (0x11A59, 0x11A5B); (0x11A8A, 0x11A96);
    (0x11A98, 0x11A99); (0x11C30, 0x11C36); (0x11C38, 0x11C3D);
    (0x11C3F, 0x11C3F); (0x11C92, 0x11CA7); (0x11CAA, 0x11CB0);
    (0x11CB2, 0x11CB3); (0x11CB5, 0x11CB6); (0x11D31, 0x11D36);
    (0x11D3A, 0x11D3A); (0x11D3C, 0x11D3D); (0x11D3F, 0x11D45);
    (0x11D47, 0x11D47); (0x11D90, 0x11D91); (0x11D95, 0x11D95);
    (0x11D97, 0x11D97); (0x11EF3, 0x11EF4); (0x13430, 0x13438);
    (0x16AF0, 0x16AF4); (0x16B30, 0x16B36); (0x16B40, 0x16B43);
    (0x16F4F, 0x16F4F); (0x16F8F, 0x16F9F); (0x16FE0, 0x16FE1);
    (0x16FE3, 0x16FE4); (0x1AFF0, 0x1AFF3); (0x1AFF5, 0x1AFFB);
    (0x1AFFD, 0x1AFFE); (0x1BC9D, 0x1BC9E); (0x1BCA0, 0x1BCA3);
    (0x1CF00, 0x1CF2D); (0x1CF30, 0x1CF46); (0x1D167, 0x1D169);
    (0x1D173, 0x1D182); (0x1D185, 0x1D18B); (0x1D1AA, 0x1D1AD);
    (0x1D242, 0x1D244); (0x1DA00, 0x1DA36); (0x1DA3B, 0x1DA6C);
    (0x1DA75, 0x1DA75); (0x1DA84, 0x1DA84); (0x1DA9B, 0x1DA9F);
    (0x1DAA1, 0x1DAAF); (0x1E000, 0x1E006); (0x1E008, 0x1E018);
    (0x1E01B, 0x1E021); (0x1E023, 0x1E024); (0x1E026, 0x1E02A);
    (0x1E130, 0x1E13D); (0x1E2AE, 0x1E2AE); (0x1E2EC, 0x1E2EF);
    (0x1E8D0, 0x1E8D6); (0x1E944, 0x1E94B); (0x1F3FB, 0x1F3FF);
    (0xE0001, 0xE0001); (0xE0020, 0xE007F); (0xE0100, 0xE01EF) ].

(** The code points with the property Cased that are not
    Case_Ignorable (the test for Cased is only ever made on a code point
    that is not Case_Ignorable). *)
Definition cased_ranges : list (N * N) :=
  [
    (0x41, 0x5A); (0x61, 0x7A); (0xAA, 0xAA); (0xB5, 0xB5); (0xBA, 0xBA);
    (0xC0, 0xD6); (0xD8, 0xF6); (0xF8, 0x1BA); (0x1BC, 0x1BF);
    (0x1C4, 0x293); (0x295, 0x2AF); (0x370, 0x373); (0x376, 0x377);
    (0x37B, 0x37D); (0x37F, 0x37F); (0x386, 0x386); (0x388, 0x38A);
    (0x38C, 0x38C); (0x38E, 0x3A1); (0x3A3, 0x3F5); (0x3F7, 0x481);
    (0x48A, 0x52F); (0x531, 0x556); (0x560, 0x588); (0x10A0, 0x10C5);
    (0x10C7, 0x10C7); (0x10CD, 0x10CD); (0x10D0, 0x10FA); (0x10FD, 0x10FF);
    (0x13A0, 0x13F5); (0x13F8, 0x13FD); (0x1C80, 0x1C88); (0x1C90, 0x1CBA);
    (0x1CBD, 0x1CBF); (0x1D00, 0x1D2B); (0x1D6B, 0x1D77); (0x1D79, 0x1D9A);
    (0x1E00, 0x1F15); (0x1F18, 0x1F1D); (0x1F20, 0x1F45); (0x1F48, 0x1F4D);
    (0x1F50, 0x1F57); (0x1F59, 0x1F59); (0x1F5B, 0x1F5B); (0x1F5D, 0x1F5D);
    (0x1F5F, 0x1F7D); (0x1F80, 0x1FB4); (0x1FB6, 0x1FBC); (0x1FBE, 0x1FBE);
    (0x1FC2, 0x1FC4); (0x1FC6, 0x1FCC); (0x1FD0, 0x1FD3); (0x1FD6, 0x1FDB);
    (0x1FE0, 0x1FEC); (0x1FF2, 0x1FF4); (0x1FF6, 0x1FFC); (0x2102, 0x2102);
    (0x2107, 0x2107); (0x210A, 0x2113); (0x2115, 0x2115); (0x2119, 0x211D);
    (0x2124, 0x2124); (0x2126, 0x2126); (0x2128, 0x2128); (0x212A, 0x212D);
    (0x212F, 0x2134); (0x2139, 0x2139); (0x213C, 0x213F); (0x2145, 0x2149);
    (0x214E, 0x214E); (0x2160, 0x217F); (0x2183, 0x2184); (0x24B6, 0x24E9);
    (0x2C00, 0x2C7B); (0x2C7E, 0x2CE4); (0x2CEB, 0x2CEE); (0x2CF2, 0x2CF3);
    (0x2D00, 0x2D25); (0x2D27, 0x2D27); (0x2D2D, 0x2D2D); (0xA640, 0xA66D);
    (0xA680, 0xA69B); (0xA722, 0xA76F); (0xA771, 0xA787); (0xA78B, 0xA78E);
    (0xA790, 0xA7CA); (0xA7D0, 0xA7D1); (0xA7D3, 0xA7D3); (0xA7D5, 0xA7D9);
    (0xA7F5, 0xA7F6); (0xA7FA, 0xA7FA); (0xAB30, 0xAB5A); (0xAB60, 0xAB68);
    (0xAB70, 0xABBF); (0xFB00, 0xFB06); (0xFB13, 0xFB17); (0xFF21, 0xFF3A);
    (0xFF41, 0xFF5A); (0x10400, 0x1044F); (0x104B0, 0x104D3);
    (0x104D8, 0x104FB); (0x10570, 0x1057A); (0x1057C, 0x1058A);
    (0x1058C, 0x10592); (0x10594, 0x10595); (0x10597, 0x105A1);
    (0x105A3, 0x105B1); (0x105B3, 0x105B9); (0x105BB, 0x105BC);
    (0x10C80, 0x10CB2); (0x10CC0, 0x10CF2); (0x118A0, 0x118DF);
    (0x16E40, 0x16E7F); (0x1D400, 0x1D454); (0x1D456, 0x1D49C);
    (0x1D49E, 0x1D49F); (0x1D4A2, 0x1D4A2); (0x1D4A5, 0x1D4A6);
    (0x1D4A9, 0x1D4AC); (0x1D4AE, 0x1D4B9); (0x1D4BB, 0x1D4BB);
    (0x1D4BD, 0x1D4C3); (0x1D4C5, 0x1D505); (0x1D507, 0x1D50A);
    (0x1D50D, 0x1D514); (0x1D516, 0x1D51C); (0x1D51E, 0x1D539);
    (0x1D53B, 0x1D53E); (0x1D540, 0x1D544); (0x1D546, 0x1D546);
    (0x1D54A, 0x1D550); (0x1D552, 0x1D6A5); (0x1D6A8, 0x1D6C0);
    (0x1D6C2, 0x1D6DA); (0x1D6DC, 0x1D6FA); (0x1D6FC, 0x1D714);
    (0x1D716, 0x1D734); (0x1D736, 0x1D74E); (0x1D750, 0x1D76E);
    (0x1D770, 0x1D788); (0x1D78A, 0x1D7A8); (0x1D7AA, 0x1D7C2);
    (0x1D7C4, 0x1D7CB); (0x1DF00, 0x1DF09); (0x1DF0B, 0x1DF1E);
    (0x1E900, 0x1E943); (0x1F130, 0x1F149); (0x1F150, 0x1F169);
    (0x1F170, 0x1F189) ].

Definition in_ranges (ranges : list (N * N)) (c : N) : bool :=
  existsb (λ r, between r.1 r.2 c) ranges.

Definition is_case_ignorable : N → bool := in_ranges case_ignorable_ranges.
Definition is_cased : N → bool := in_ranges cased_ranges.

Fixpoint skip_ignorable (s : str) : str :=
  match s with
  | c :: s' => if is_case_ignorable c then skip_ignorable s' else s
  | [] => []
  end.

(** [handle_capital_sigma]: a sigma is final when a cased letter stands
    before it and none after it, code points that are Case_Ignorable
    passed over.  [before] is the text before the sigma, nearest code
    point first. *)
Definition final_sigma (before after : str) : bool :=
  match skip_ignorable before with
  | c :: _ =>
      is_cased c &&
      match skip_ignorable after with
      | c' :: _ => negb (is_cased c')
      | [] => true
      end
  | [] => false
  end.

(** [lower_ucs4] *)
Definition lower_at (before : str) (c : N) (after : str) : str :=
  if c =? 0x3A3 then [if final_sigma before after then 0x3C2 else 0x3C3]
  else to_lower_full c.

Fixpoint lower_from (before s : str) : str :=
  match s with
  | [] => []
  | c :: s' => lower_at before c s' ++ lower_from (c :: before) s'
  end.

Definition lower (s : str) : str := lower_from [] s.

(** *** [str.casefold]

    Unicode case folding (the full foldings of CaseFolding.txt), which is
    what the specification asks of the query engine; the program does not
    call it.  [_PyUnicode_ToFoldedFull]: the folding of a code point is
    its own entry, or else its full lower-case mapping. *)

(** The foldings to one code point that differ from the lower-case
    mapping. *)
Definition fold_ranges : list (N * N * N * N) :=
  [
    (0xB5, 0xB5, 1, 0x3BC); (0x17F, 0x17F, 1, 0x73);
    (0x345, 0x345, 1, 0x3B9); (0x3C2, 0x3C2, 1, 0x3C3);
    (0x3D0, 0x3D0, 1, 0x3B2); (0x3D1, 0x3D1, 1, 0x3B8);
    (0x3D5, 0x3D5, 1, 0x3C6); (0x3D6, 0x3D6, 1, 0x3C0);
    (0x3F0, 0x3F0, 1, 0x3BA); (0x3F1, 0x3F1, 1, 0x3C1);
    (0x3F5, 0x3F5, 1, 0x3B5); (0x13A0, 0x13F5, 1, 0x13A0);
    (0x13F8, 0x13FD, 1, 0x13F0); (0x1C80, 0x1C80, 1, 0x432);
    (0x1C81, 0x1C81, 1, 0x434); (0x1C82, 0x1C82, 1, 0x43E);
    (0x1C83, 0x1C84, 1, 0x441); (0x1C85, 0x1C85, 1, 0x442);
    (0x1C86, 0x1C86, 1, 0x44A); (0x1C87, 0x1C87, 1, 0x463);
    (0x1C88, 0x1C88, 1, 0xA64B); (0x1E9B, 0x1E9B, 1, 0x1E61);
    (0x1FBE, 0x1FBE, 1, 0x3B9); (0xAB70, 0xABBF, 1, 0x13A0) ].

(** The foldings to several code points. *)
Definition fold_full : list (N * list N) :=
  [
    (0xDF, [0x73; 0x73]); (0x149, [0x2BC; 0x6E]); (0x1F0, [0x6A; 0x30C]);
    (0x390, [0x3B9; 0x308; 0x301]); (0x3B0, [0x3C5; 0x308; 0x301]);
    (0x587, [0x565; 0x582]); (0x1E96, [0x68; 0x331]);
    (0x1E97, [0x74; 0x308]); (0x1E98, [0x77; 0x30A]);
    (0x1E99, [0x79; 0x30A]); (0x1E9A, [0x61; 0x2BE]);
    (0x1E9E, [0x73; 0x73]); (0x1F50, [0x3C5; 0x313]);
    (0x1F52, [0x3C5; 0x313; 0x300]); (0x1F54, [0x3C5; 0x313; 0x301]);
    (0x1F56, [0x3C5; 0x313; 0x342]); (0x1F80, [0x1F00; 0x3B9]);
    (0x1F81, [0x1F01; 0x3B9]); (0x1F82, [0x1F02; 0x3B9]);
    (0x1F83, [0x1F03; 0x3B9]); (0x1F84, [0x1F04; 0x3B9]);
    (0x1F85, [0x1F05; 0x3B9]); (0x1F86, [0x1F06; 0x3B9]);
    (0x1F87, [0x1F07; 0x3B9]); (0x1F88, [0x1F00; 0x3B9]);
    (0x1F89, [0x1F01; 0x3B9]); (0x1F8A, [0x1F02; 0x3B9]);
    (0x1F8B, [0x1F03; 0x3B9]); (0x1F8C, [0x1F04; 0x3B9]);
    (0x1F8D, [0x1F05; 0x3B9]); (0x1F8E, [0x1F06; 0x3B9]);
    (0x1F8F, [0x1F07; 0x3B9]); (0x1F90, [0x1F20; 0x3B9]);
    (0x1F91, [0x1F21; 0x3B9]); (0x1F92, [0x1F22; 0x3B9]);
    (0x1F93, [0x1F23; 0x3B9]); (0x1F94, [0x1F24; 0x3B9]);
    (0x1F95, [0x1F25; 0x3B9]); (0x1F96, [0x1F26; 0x3B9]);
    (0x1F97, [0x1F27; 0x3B9]); (0x1F98, [0x1F20; 0x3B9]);
    (0x1F99, [0x1F21; 0x3B9]); (0x1F9A, [0x1F22; 0x3B9]);
    (0x1F9B, [0x1F23; 0x3B9]); (0x1F9C, [0x1F24; 0x3B9]);
    (0x1F9D, [0x1F25; 0x3B9]); (0x1F9E, [0x1F26; 0x3B9]);
    (0x1F9F, [0x1F27; 0x3B9]); (0x1FA0, [0x1F60; 0x3B9]);
    (0x1FA1, [0x1F61; 0x3B9]); (0x1FA2, [0x1F62; 0x3B9]);
    (0x1FA3, [0x1F63; 0x3B9]); (0x1FA4, [0x1F64; 0x3B9]);
    (0x1FA5, [0x1F65; 0x3B9]); (0x1FA6, [0x1F66; 0x3B9]);
    (0x1FA7, [0x1F67; 0x3B9]); (0x1FA8, [0x1F60; 0x3B9]);
    (0x1FA9, [0x1F61; 0x3B9]); (0x1FAA, [0x1F62; 0x3B9]);
    (0x1FAB, [0x1F63; 0x3B9]); (0x1FAC, [0x1F64; 0x3B9]);
    (0x1FAD, [0x1F65; 0x3B9]); (0x1FAE, [0x1F66; 0x3B9]);
    (0x1FAF, [0x1F67; 0x3B9]); (0x1FB2, [0x1F70; 0x3B9]);
    (0x1FB3, [0x3B1; 0x3B9]); (0x1FB4, [0x3AC; 0x3B9]);
    (0x1FB6, [0x3B1; 0x342]); (0x1FB7, [0x3B1; 0x342; 0x3B9]);
    (0x1FBC, [0x3B1; 0x3B9]); (0x1FC2, [0x1F74; 0x3B9]);
    (0x1FC3, [0x3B7; 0x3B9]); (0x1FC4, [0x3AE; 0x3B9]);
    (0x1FC6, [0x3B7; 0x342]); (0x1FC7, [0x3B7; 0x342; 0x3B9]);
    (0x1FCC, [0x3B7; 0x3B9]); (0x1FD2, [0x3B9; 0x308; 0x300]);
    (0x1FD3, [0x3B9; 0x308; 0x301]); (0x1FD6, [0x3B9; 0x342]);
    (0x1FD7, [0x3B9; 0x308; 0x342]); (0x1FE2, [0x3C5; 0x308; 0x300]);
    (0x1FE3, [0x3C5; 0x308; 0x301]); (0x1FE4, [0x3C1; 0x313]);
    (0x1FE6, [0x3C5; 0x342]); (0x1FE7, [0x3C5; 0x308; 0x342]);
    (0x1FF2, [0x1F7C; 0x3B9]); (0x1FF3, [0x3C9; 0x3B9]);
    (0x1FF4, [0x3CE; 0x3B9]); (0x1FF6, [0x3C9; 0x342]);
    (0x1FF7, [0x3C9; 0x342; 0x3B9]); (0x1FFC, [0x3C9; 0x3B9]);
    (0xFB00, [0x66; 0x66]); (0xFB01, [0x66; 0x69]); (0xFB02, [0x66; 0x6C]);
    (0xFB03, [0x66; 0x66; 0x69]); (0xFB04, [0x66; 0x66; 0x6C]);
    (0xFB05, [0x73; 0x74]); (0xFB06, [0x73; 0x74]);
    (0xFB13, [0x574; 0x576]); (0xFB14, [0x574; 0x565]);
    (0xFB15, [0x574; 0x56B]); (0xFB16, [0x57E; 0x576]);
    (0xFB17, [0x574; 0x56D]) ].

Definition fold_cp (c : N) : str :=
  match List.find (λ e, e.1 =? c) fold_full with
  | Some e => e.2
  | None =>
      match map_range fold_ranges c with
      | Some d => [d]
      | None => to_lower_full c
      end
  end.

Definition casefold (s : str) : str := s ≫= fold_cp.

(** *** [str.strip]

    Removes leading and trailing code points for which [str.isspace]
    holds. *)

Definition isspace (c : N) : bool :=
  between 0x09 0x0D c || between 0x1C 0x20 c || (c =? 0x85) || (c =? 0xA0)
  || (c =? 0x1680) || between 0x2000 0x200A c || between 0x2028 0x2029 c
  || (c =? 0x202F) || (c =? 0x205F) || (c =? 0x3000).

Fixpoint lstrip (s : str) : str :=
  match s with
  | c :: s' => if isspace c then lstrip s' else s
  | [] => []
  end.

Definition strip (s : str) : str := rev (lstrip (rev (lstrip s))).

(** *** [sub in s] on strings: [sub] occurs in [s] as a contiguous run. *)

Fixpoint startswith (s pre : str) : bool :=
  match pre, s with
  | [], _ => true
  | p :: pre', c :: s' => (p =? c) && startswith s' pre'
  | _ :: _, [] => false
  end.

Fixpoint contains (s sub : str) : bool :=
  startswith s sub ||
  match s with
  | [] => false
  | _ :: s' => contains s' sub
  end.

(** Truthiness of a string: [if s:] holds for the non-empty ones. *)
Definition truthy (s : str) : bool :=
  match s with [] => false | _ => true end.

(** *** Exceptions

    The exception classes the program can meet.  A class stands for
    itself and its subclasses: [OSError] for [FileNotFoundError],
    [PermissionError], ...; [ValueError] for [UnicodeDecodeError] and
    [UnicodeEncodeError].  [CsvError] is [csv.Error].  All of them derive
    from [Exception]. *)

Inductive exn :=
| KeyError | ValueError | TypeError | AttributeError
| ZeroDivisionError | OSError | CsvError.

Inductive result (A : Type) :=
| Ok (a : A)
| Raise (e : exn).
Arguments Ok {A} a.
Arguments Raise {A} e.

(** The error monad of a [try] block's body: the first exception raised
    ends the computation.  The instances give it stdpp's notation
    [x ← r; k]. *)
#[global] Instance result_bind : MBind result := λ A B k r,
  match r with
  | Ok a => k a
  | Raise e => Raise e
  end.
#[global] Instance result_ret : MRet result := λ A a, Ok a.

(** *** [float]: IEEE 754 binary64 *)

Abbreviation float := spec_float.

Definition prec : Z := 53.
Definition emax : Z := 1024.

Definition isnan (x : float) : bool :=
  match x with S754_nan => true | _ => false end.

Definition isinf (x : float) : bool :=
  match x with S754_infinity _ => true | _ => false end.

(** Neither NaN nor an infinity. *)
Definition isfinite (x : float) : bool := negb (isnan x || isinf x).

(** [x == 0.0]: both signed zeros. *)
Definition is_zero (x : float) : bool :=
  match x with S754_zero _ => true | _ => false end.

(** [x < y] on floats; false as soon as one side is NaN. *)
Definition flt (x y : float) : bool := SFltb x y.

(** [x <= y] on floats; false as soon as one side is NaN. *)
Definition fle (x y : float) : bool := SFleb x y.

(** [x / y]: [ZeroDivisionError] when the divisor is zero, the IEEE
    quotient otherwise. *)
Definition truediv (x y : float) : result float :=
  if is_zero y then Raise ZeroDivisionError else Ok (SFdiv prec emax x y).

(** *** [float(s)] for a string [s]

    Grammar of the language reference: surrounding whitespace is
    dropped; an optional sign; then [inf], [infinity] or [nan] in any
    letter case, or a decimal number with an optional exponent, where a
    single underscore may separate two digits.  A digit is any Unicode
    decimal digit.  The value is the binary64 number nearest to the
    decimal one (ties to even); a magnitude beyond the binary64 range
    gives an infinity.  Anything else is a [ValueError].

    The whitespace [float] drops is that of [str.isspace] without the
    four separators U+001C to U+001F: CPython turns the whitespace that
    is not ASCII into spaces first and then strips what the C locale
    takes for a space. *)

Definition float_space (c : N) : bool :=
  isspace c && negb (between 0x1C 0x1F c).

Fixpoint float_lstrip (s : str) : str :=
  match s with
  | c :: s' => if float_space c then float_lstrip s' else s
  | [] => []
  end.

Definition float_strip (s : str) : str :=
  rev (float_lstrip (rev (float_lstrip s))).

(** The digits zero of Unicode 14.0 (general category Nd); each is
    followed by its digits one to nine. *)
Definition decimal_zeros : list N :=
  [ 0x30; 0x660; 0x6F0; 0x7C0; 0x966; 0x9E6; 0xA66; 0xAE6; 0xB66; 0xBE6;
    0xC66; 0xCE6; 0xD66; 0xDE6; 0xE50; 0xED0; 0xF20; 0x1040; 0x1090;
    0x17E0; 0x1810; 0x1946; 0x19D0; 0x1A80; 0x1A90; 0x1B50; 0x1BB0;
    0x1C40; 0x1C50; 0xA620; 0xA8D0; 0xA900; 0xA9D0; 0xA9F0; 0xAA50;
    0xABF0; 0xFF10; 0x104A0; 0x10D30; 0x11066; 0x110F0; 0x11136; 0x111D0;
    0x112F0; 0x11450; 0x114D0; 0x11650; 0x116C0; 0x11730; 0x118E0;
    0x11950; 0x11C50; 0x11D50; 0x11DA0; 0x16A60; 0x16AC0; 0x16B50;
    0x1D7CE; 0x1D7D8; 0x1D7E2; 0x1D7EC; 0x1D7F6; 0x1E140; 0x1E2F0;
    0x1E950; 0x1FBF0 ].

(** The value of a decimal digit. *)
Definition to_decimal (c : N) : option N :=
  match List.find (λ z, between z (z + 9) c) decimal_zeros with
  | Some z => Some (c - z)
  | None => None
  end.

Definition is_digit (c : N) : bool :=
  match to_decimal c with Some _ => true | None => false end.

(** A run of digits, single underscores between digits allowed: the
    values of the digits and the rest of the string. *)
Fixpoint digitpart (s : str) : list N * str :=
  match s with
  | c :: s' =>
      match to_decimal c with
      | Some d =>
          let '(ds, r) :=
            match s' with
            | u :: ((c2 :: _) as s'') =>
                if (u =? 95) && is_digit c2 then digitpart s''
                else digitpart s'
            | _ => digitpart s'
            end in
          (d :: ds, r)
      | None => ([], s)
      end
  | [] => ([], [])
  end.

Definition digits_value (ds : list N) : Z :=
  fold_left (fun acc d => (10 * acc + Z.of_N d)%Z) ds 0%Z.

(** The binary64 number nearest to [(-1)^neg * m * 10^e].  For a
    negative [e] the quotient is taken with enough extra bits and a
    sticky bit, then rounded once. *)
Definition round_decimal (neg : bool) (m e : Z) : float :=
  let sgn (z : Z) : Z := if neg then Z.opp z else z in
  if (m =? 0)%Z then S754_zero neg
  else if (0 <=? e)%Z then
    binary_normalize prec emax (sgn (m * 10 ^ e)%Z) 0 false
  else
    let d := (10 ^ (- e))%Z in
    let s := Z.max 0 (Z.log2 d - Z.log2 m + 64)%Z in
    let '(q, r) := Z.div_eucl (m * 2 ^ s)%Z d in
    let sticky := if (r =? 0)%Z then 0%Z else 1%Z in
    binary_normalize prec emax (sgn (2 * q + sticky)%Z) (- s - 1)%Z false.

Definition parse_sign (s : str) : bool * str :=
  match s with
  | 45 :: s' => (true, s')
  | 43 :: s' => (false, s')
  | _ => (false, s)
  end.

Definition parse_exponent (s : str) : option Z :=
  match s with
  | [] => Some 0%Z
  | c :: s' =>
      if (c =? 101) || (c =? 69) then
        let '(neg, s1) := parse_sign s' in
        match digitpart s1 with
        | ((_ :: _) as ds, []) =>
            Some (if neg then (- digits_value ds)%Z else digits_value ds)
        | _ => None
        end
      else None
  end.

Definition parse_number (neg : bool) (s : str) : option float :=
  let '(ip, r1) := digitpart s in
  let '(fp, r2) :=
    match r1 with
    | 46 :: r => digitpart r
    | _ => ([], r1)
    end in
  match ip ++ fp with
  | [] => None
  | ds =>
      match parse_exponent r2 with
      | Some ex =>
          Some (round_decimal neg (digits_value ds)
                  (ex - Z.of_nat (length fp))%Z)
      | None => None
      end
  end.

Definition str_eqb (a b : str) : bool := bool_decide (a = b).

Definition ascii_lower (c : N) : N :=
  if between 0x41 0x5A c then c + 0x20 else c.

Definition float_of_str (s : str) : result float :=
  let '(neg, body) := parse_sign (float_strip s) in
  let word := map ascii_lower body in
  if str_eqb word (lit "inf") || str_eqb word (lit "infinity") then
    Ok (S754_infinity neg)
  else if str_eqb word (lit "nan") then Ok S754_nan
  else
    match parse_number neg body with
    | Some x => Ok x
    | None => Raise ValueError
    end.

(** *** [sorted(l, key=key)]

    [list.sort] is stable and compares keys with [<] only.  The model
    is the stable insertion from the right: each element in turn moves
    left past the elements whose key is strictly greater.  Where [<] is a
    strict weak order on the keys (no NaN among them) the ascending
    stable arrangement is unique, so the model returns the list
    [list.sort] returns; a list with no adjacent pair in descending order
    is a single run for [list.sort] and comes back unchanged, here as
    well.  On other lists with NaN among the keys [list.sort] (which
    finds runs, inserts by bisection and merges) and the model return
    rearrangements of the list that can differ; nothing is stated below
    about the order of such a result.  [acc] holds the sorted prefix,
    last element first. *)

Section Sorted.
Context {A : Type} (key : A -> float).

Fixpoint insert_back (x : A) (acc : list A) : list A :=
  match acc with
  | y :: acc' =>
      if flt (key x) (key y) then y :: insert_back x acc' else x :: acc
  | [] => [x]
  end.

Definition sorted (l : list A) : list A :=
  rev (fold_left (fun acc x => insert_back x acc) l []).

(** [y] is not strictly smaller than [x]: what [list.sort] takes for
    [x] and [y] being in order. *)
Definition in_order (x y : A) : Prop := flt (key y) (key x) = false.

(** Ascending by key: every element is [<=] all the later ones. *)
Definition ascending (l : list A) : Prop :=
  StronglySorted (λ x y, fle (key x) (key y) = true) l.

(** The elements whose key equals ([==]) [k]. *)
Definition tied (k : float) (l : list A) : list A :=
  List.filter (λ x, SFeqb (key x) k) l.

Definition no_nan (l : list A) : bool :=
  forallb (λ x, negb (isnan (key x))) l.

End Sorted.

End Py.

(* ================================================================= *)
(** ** [os.path.join] (POSIX) *)

Module OsPath.

Definition sep : N := 47%N.

Definition endswith_sep (a : str) : bool :=
  match last a with
  | Some c => (c =? sep)%N
  | None => false
  end.

Definition join (a b : str) : str :=
  if Py.startswith b [sep] then b
  else if negb (Py.truthy a) || endswith_sep a then a ++ b
  else a ++ sep :: b.

End OsPath.

(* ================================================================= *)
(** ** [csv.DictReader] *)

Module Csv.

(** A value of a row dictionary: the text of a cell, or [None], the
    [restval] a short row gets for its missing cells. *)
Inductive cell :=
| Str (s : str)
| PyNone.

(** [dict(pairs)]: entries are inserted in order, so a later pair
    replaces an earlier one with the same key. *)
Definition dict {V} (pairs : list (str * V)) : gmap str V :=
  fold_left (λ d kv, <[kv.1 := kv.2]> d) pairs ∅.

(** [DictReader.__next__] for one non-empty record [row]:
    [d = dict(zip(fieldnames, row))], then [d[key] = restval] for the
    keys of [fieldnames[len(row):]].  (The surplus cells of a long row
    go under the key [None], which is no header and is left out.) *)
Definition row_dict (fieldnames row : list str) : gmap str cell :=
  fold_left (λ d key, <[key := PyNone]> d)
    (drop (length row) fieldnames)
    (dict (zip fieldnames (Str <$> row))).

(** The rows a [DictReader] yields after the header: empty records
    (blank lines) are passed over. *)
Definition is_blank (row : list str) : bool :=
  match row with [] => true | _ => false end.

Definition dict_rows (fieldnames : list str) (body : list (list str))
  : list (gmap str cell) :=
  row_dict fieldnames <$> List.filter (λ row, negb (is_blank row)) body.

End Csv.

(* ================================================================= *)
(** ** The file system seen by the program

    [listdir p] is [os.listdir(p)].  [open_csv p] is [open(p)] followed
    by [csv.reader]; it raises when the file cannot be opened.  The
    reader is read record by record as the program asks for the next
    one, so a file that is open can still fail further on: [open_csv p]
    gives the records the reader yields, each a list of cells, the header
    record first, a blank line being the empty record, and how the reader
    ends after them: at the end of the file ([None]), or with an
    exception ([UnicodeDecodeError] when the next part of the file
    cannot be decoded, [csv.Error] when it cannot be tokenised, an
    [OSError] of the read). *)

Record filesystem := {
  listdir : str → Py.result (list str);
  open_csv : str → Py.result (list (list str) * option Py.exn)
}.

(* ================================================================= *)
(** ** class [PriceAnalyzer] *)

Module PA.
Import Py Csv.

(** An element of [self.data]: the tuple
    [(name, price, weight, file, price_per_kg)]. *)
Record entry := Entry {
  name : str;
  price : float;
  weight : float;
  file : str;
  price_per_kg : float
}.

Record PriceAnalyzer := {
  folder_path : str;
  data : list entry
}.

(** [__init__] *)
Definition init (folder_path : str) : PriceAnalyzer :=
  {| folder_path := folder_path; data := [] |}.

(** What [logging] receives, oldest first. *)
Inductive log_record :=
| Warning_missing_columns (file : str) (missing_columns : list str)
| Error_row (file : str) (e : exn)
| Error_file (file : str) (e : exn).

(** The world [load_prices] acts on: the analyzer, what was logged, and
    the paths handed to [open], oldest first. *)
Record state := {
  self : PriceAnalyzer;
  log : list log_record;
  opened : list str
}.

(** [self.data.append(x)] *)
Definition append (x : entry) (st : state) : state :=
  {| self := {| folder_path := folder_path (self st);
                data := data (self st) ++ [x] |};
     log := log st; opened := opened st |}.

Definition logging (r : log_record) (st : state) : state :=
  {| self := self st; log := log st ++ [r]; opened := opened st |}.

Definition note_open (path : str) (st : state) : state :=
  {| self := self st; log := log st; opened := opened st ++ [path] |}.

(** Lines 32-37. *)
Definition column_mapping : gmap str str :=
  dict [ (lit "название", lit "name"); (lit "продукт", lit "name");
         (lit "товар", lit "name"); (lit "наименование", lit "name");
         (lit "цена", lit "price"); (lit "розница", lit "price");
         (lit "фасовка", lit "weight"); (lit "масса", lit "weight");
         (lit "вес", lit "weight") ].

(** Lines 47-51. *)
Definition add_column (columns : gmap str str) (col : str) : gmap str str :=
  match column_mapping !! lower col with
  | Some mapped_col =>
      if truthy mapped_col then <[mapped_col := col]> columns else columns
  | None => columns
  end.

Definition resolve_columns (fieldnames : list str) : gmap str str :=
  fold_left add_column fieldnames ∅.

(** Lines 53-55. *)
Definition required_columns : list str :=
  [lit "name"; lit "price"; lit "weight"].

Definition missing_columns (columns : gmap str str) : list str :=
  List.filter (λ col, bool_decide (columns !! col = None)) required_columns.

(** [d[k]] *)
Definition getitem {V} (d : gmap str V) (k : str) : result V :=
  match d !! k with
  | Some v => Ok v
  | None => Raise KeyError
  end.

(** [c.strip()]: [None] has no attribute [strip]. *)
Definition cell_strip (c : cell) : result str :=
  match c with
  | Str s => Ok (strip s)
  | PyNone => Raise AttributeError
  end.

(** Lines 64-69, up to the tuple that is appended. *)
Definition make_entry (file : str) (columns : gmap str str)
    (row : gmap str cell) : result entry :=
  h ← getitem columns (lit "name");
  c ← getitem row h;
  name ← cell_strip c;
  h ← getitem columns (lit "price");
  c ← getitem row h;
  s ← cell_strip c;
  price ← float_of_str s;
  h ← getitem columns (lit "weight");
  c ← getitem row h;
  s ← cell_strip c;
  weight ← float_of_str s;
  price_per_kg ← truediv price weight;
  Ok (Entry name price weight file price_per_kg).

(** Line 71: the classes the handler of the row names. *)
Definition row_handler_catches (e : exn) : bool :=
  match e with
  | KeyError | ValueError | TypeError => true
  | _ => false
  end.

(** Lines 62-75.  [rows] are the rows the reader yields and [how] is
    how it ends after them; the [for] statement asks the reader for the
    next row outside the [try] of the row, so the exception of the reader
    leaves the loop.  The loop also stops at the first exception the row
    handler does not catch.  Either exception is handed on, with what
    was appended so far. *)
Fixpoint load_rows (file : str) (columns : gmap str str)
    (rows : list (gmap str cell)) (how : option exn) (st : state)
  : state * option exn :=
  match rows with
  | [] => (st, how)
  | row :: rest =>
      match make_entry file columns row with
      | Ok x => load_rows file columns rest how (append x st)
      | Raise e =>
          if row_handler_catches e
          then load_rows file columns rest how (logging (Error_row file e) st)
          else (st, Some e)
      end
  end.

(** Lines 40-75, the path of the file and the body of the outer [try]:
    the state it leaves and the exception that reaches the outer
    handler, if any.  [reader.fieldnames] reads the first record: when
    the reader fails there, its exception is raised; an empty file has
    [reader.fieldnames = None], and iterating over it is a [TypeError].
    A file that lacks a column is left by [continue] before any further
    record is read. *)
Definition load_file (fs : filesystem) (file : str) (st : state)
  : state * option exn :=
  let file_path := OsPath.join (folder_path (self st)) file in
  let st := note_open file_path st in
  match open_csv fs file_path with
  | Raise e => (st, Some e)
  | Ok ([], Some e) => (st, Some e)
  | Ok ([], None) => (st, Some TypeError)
  | Ok (fieldnames :: body, how) =>
      let columns := resolve_columns fieldnames in
      match missing_columns columns with
      | [] => load_rows file columns (dict_rows fieldnames body) how st
      | missing => (logging (Warning_missing_columns file missing) st, None)
      end
  end.

(** Lines 39-78: one turn of the loop over [files]; the outer handler
    catches every [Exception]. *)
Definition try_file (fs : filesystem) (st : state) (file : str) : state :=
  match load_file fs file st with
  | (st', None) => st'
  | (st', Some e) => logging (Error_file file e) st'
  end.

Definition load_files (fs : filesystem) (files : list str) (st : state)
  : state :=
  fold_left (try_file fs) files st.

(** Line 31. *)
Definition candidates (listing : list str) : list str :=
  List.filter (λ f, contains f (lit "price")) listing.

(** [load_prices]: the state it leaves, or the exception that leaves the
    method. *)
Definition load_prices (fs : filesystem) (st : state) : result state :=
  listing ← listdir fs (folder_path (self st));
  Ok (load_files fs (candidates listing) st).

(** [find_text]: the list returned, and [self] after the call. *)
Definition matches (query : str) (entry : entry) : bool :=
  contains (lower (name entry)) (lower query).

Definition find_text (self : PriceAnalyzer) (query : str)
  : list entry * PriceAnalyzer :=
  let results := List.filter (matches query) (data self) in
  (sorted price_per_kg results, self).

(** The state right after [PriceAnalyzer(folder_path)]. *)
Definition start (folder_path : str) : state :=
  {| self := init folder_path; log := []; opened := [] |}.

End PA.

(* ================================================================= *)
(** ** Notions used in the statements *)

Module Frame.
Import Py Csv PA.

(** [st] with [new] appended to the catalog, [logged] to the log and
    [paths] to the trace of [open]. *)
Definition grow (st : state) (new : list entry) (logged : list log_record)
    (paths : list str) : state :=
  {| self := {| folder_path := folder_path (self st);
                data := data (self st) ++ new |};
     log := log st ++ logged;
     opened := opened st ++ paths |}.

(** The entries one file adds: those [try_file] leaves in a fresh
    analyzer. *)
Definition file_entries (fs : filesystem) (folder file : str) : list entry :=
  data (self (try_file fs (start folder) file)).

(** [x] is the entry of some row of [file]. *)
Definition made_for (file : str) (x : entry) : Prop :=
  ∃ columns row, make_entry file columns row = Ok x.

(** Letter case, code point by code point.  The capital of a small
    letter of Basic Latin or of the Russian alphabet stands 32 code
    points below it; [c] is the letter [d] in either case. *)
Definition either_case (c d : N) : Prop := c = d ∨ (c + 32)%N = d.

(** [h] is the word [k] in any mix of letter cases. *)
Definition spells (h k : str) : Prop := Forall2 either_case h k.

(** The small letters a to z and а to я. *)
Definition small_letter (d : N) : bool :=
  (between 97 122 d || between 0x430 0x44F d)%N.

(** The small letters that only themselves and their capital lower-case
    to: all of them but k (the Kelvin sign U+212A gives k too). *)
Definition plain_letter (d : N) : bool := small_letter d && negb (d =? 107)%N.

(** The synonym table as the interface lists it: the accepted aliases of
    each canonical field. *)
Definition synonyms : list (str * str) :=
  [ (lit "название", lit "name"); (lit "продукт", lit "name");
    (lit "товар", lit "name"); (lit "наименование", lit "name");
    (lit "цена", lit "price"); (lit "розница", lit "price");
    (lit "фасовка", lit "weight"); (lit "масса", lit "weight");
    (lit "вес", lit "weight") ].

(** The header [h] is an alias of the field [c], in any letter case. *)
Definition alias_of (c h : str) : Prop :=
  ∃ k, (k, c) ∈ synonyms ∧ spells h k.

(** [p] holds of the [fuel] code points from [c] on. *)
Fixpoint all_from (fuel : nat) (c : N) (p : N → bool) : bool :=
  match fuel with
  | O => true
  | S fuel' => p c && all_from fuel' (N.succ c) p
  end.

End Frame.

(* ================================================================= *)
(** ** Sample directories *)

Module Demo.
Import Py Csv PA.

Definition folder : str := lit "./price_lists".

Fixpoint records_at (files : list (str * list (list str))) (path : str)
  : result (list (list str) * option exn) :=
  match files with
  | [] => Raise OSError
  | (name, records) :: files' =>
      if str_eqb path (OsPath.join folder name) then Ok (records, None)
      else records_at files' path
  end.

(** The directory [folder] with the files [files], listed in this order
    and readable to their end; no other directory exists. *)
Definition directory (files : list (str * list (list str))) : filesystem :=
  {| listdir p := if str_eqb p folder then Ok (files.*1) else Raise OSError;
     open_csv := records_at files |}.

Definition header : list str := [lit "Название"; lit "Цена"; lit "Фасовка"].

(** A row of weight zero, then a well-formed one. *)
Definition fs_zero_weight : filesystem :=
  directory [ (lit "price.csv",
               [ header;
                 [lit "A"; lit "10"; lit "0"];
                 [lit "B"; lit "20"; lit "2"] ]) ].

(** A row one cell short, then a well-formed one. *)
Definition fs_short_row : filesystem :=
  directory [ (lit "price.csv",
               [ header;
                 [lit "A"; lit "10"];
                 [lit "B"; lit "20"; lit "2"] ]) ].

(** A price cell that reads [inf]. *)
Definition fs_inf : filesystem :=
  directory [ (lit "price.csv", [ header; [lit "A"; lit "inf"; lit "1"] ]) ].

(** A price cell that reads [nan], between two ordinary rows. *)
Definition fs_nan : filesystem :=
  directory [ (lit "price.csv",
               [ header;
                 [lit "a"; lit "2"; lit "1"];
                 [lit "b"; lit "nan"; lit "1"];
                 [lit "c"; lit "1"; lit "1"] ]) ].

(** Two price lists, one of them without a weight column, next to files
    that are no candidates. *)
Definition fs_shop : filesystem :=
  directory [ (lit "price_1.csv",
               [ header;
                 [lit "Молоко"; lit "60"; lit "1"];
                 [lit "Сыр"; lit "abc"; lit "1"];
                 [lit " Молочная основа "; lit "25"; lit "0.5"];
                 [];
                 [lit "Масло"; lit "200"; lit "0.5"] ]);
              (lit "Price1.csv",
               [ header; [lit "Хлеб"; lit "30"; lit "0.4"] ]);
              (lit "price_2.csv",
               [ [lit "НАИМЕНОВАНИЕ"; lit "Розница"];
                 [lit "Кефир"; lit "70"] ]);
              (lit "notes.txt", [ [lit "price"] ]) ].

(** A path that is no directory of [fs_shop]. *)
Definition elsewhere : str := lit "./missing".

(** The state [load_prices] leaves when run on a fresh analyzer for
    [folder] (the fresh state itself if it raises). *)
Definition loaded (fs : filesystem) : state :=
  match load_prices fs (start folder) with
  | Ok st => st
  | Raise _ => start folder
  end.

(** The catalog of the query examples. *)
Definition milk : entry :=
  Entry (lit "Молоко") (round_decimal false 60 0) (round_decimal false 1 0)
    (lit "price_1.csv") (round_decimal false 60 0).
Definition milk_base : entry :=
  Entry (lit "Молочная основа") (round_decimal false 25 0)
    (round_decimal false 5 (-1)) (lit "price_1.csv")
    (round_decimal false 50 0).
Definition butter : entry :=
  Entry (lit "Масло") (round_decimal false 200 0)
    (round_decimal false 5 (-1)) (lit "price_1.csv")
    (round_decimal false 400 0).

End Demo.

(* ================================================================= *)
(** ** Python builtins: numbers as text *)

Module Fmt.
Import Py.

Local Open Scope Z_scope.

(** [str(n)] for an integer: its decimal digits, with a minus sign for a
    negative one. *)
Fixpoint uint_digits (u : Decimal.uint) : str :=
  match u with
  | Decimal.Nil => []
  | Decimal.D0 u' => 48%N :: uint_digits u'
  | Decimal.D1 u' => 49%N :: uint_digits u'
  | Decimal.D2 u' => 50%N :: uint_digits u'
  | Decimal.D3 u' => 51%N :: uint_digits u'
  | Decimal.D4 u' => 52%N :: uint_digits u'
  | Decimal.D5 u' => 53%N :: uint_digits u'
  | Decimal.D6 u' => 54%N :: uint_digits u'
  | Decimal.D7 u' => 55%N :: uint_digits u'
  | Decimal.D8 u' => 56%N :: uint_digits u'
  | Decimal.D9 u' => 57%N :: uint_digits u'
  end.

Definition nat_digits (n : Z) : str := uint_digits (N.to_uint (Z.to_N n)).

Definition str_of_int (n : Z) : str :=
  if n <? 0 then 45%N :: nat_digits (- n) else nat_digits n.

(** The integer nearest to [num / den] for positive [den], ties to the
    even one. *)
Definition div_nearest_even (num den : Z) : Z :=
  let '(q, r) := Z.div_eucl num den in
  match 2 * r ?= den with
  | Lt => q
  | Gt => q + 1
  | Eq => if Z.even q then q else q + 1
  end.

(** A positive finite number [m * 2^e] as the fraction [num / den]. *)
Definition fraction (m : positive) (e : Z) : Z * Z :=
  if 0 <=? e then (Z.pos m * 2 ^ e, 1) else (Z.pos m, 2 ^ (- e)).

Definition sign_text (s : bool) : str := if s then [45%N] else [].

(** [format(x, '.2f')]: the decimal with two fractional digits nearest to
    the exact value of [x], ties to even. *)
Definition format_2f (x : float) : str :=
  match x with
  | S754_nan => lit "nan"
  | S754_infinity s => sign_text s ++ lit "inf"
  | S754_zero s => sign_text s ++ lit "0.00"
  | S754_finite s m e =>
      let '(num, den) := fraction m e in
      let n := div_nearest_even (100 * num) den in
      let frac := n mod 100 in
      sign_text s ++ nat_digits (n / 100) ++ 46%N
        :: nat_digits (frac / 10) ++ nat_digits (frac mod 10)
  end.

(** [repr(x)]: the shortest decimal that converts back to [x], and of
    the decimals of that length the one nearest to [x]. *)

(** The largest [k] with [10^k <= num / den], for a positive fraction:
    an estimate from the binary logarithms, raised while it is too
    low. *)
Definition pow10_le (k num den : Z) : bool :=
  if 0 <=? k then 10 ^ k * den <=? num else den <=? num * 10 ^ (- k).

Fixpoint raise_log10 (fuel : nat) (k num den : Z) : Z :=
  match fuel with
  | O => k
  | S fuel' =>
      if pow10_le (k + 1) num den then raise_log10 fuel' (k + 1) num den
      else k
  end.

Definition log10_floor (num den : Z) : Z :=
  let est := ((Z.log2 num - Z.log2 den - 1) * 30103) / 100000 in
  raise_log10 4 (est - 1) num den.

(** [floor (num / den * 10^s)] *)
Definition scaled_floor (num den s : Z) : Z :=
  if 0 <=? s then (num * 10 ^ s) / den else num / (den * 10 ^ (- s)).

(** Is [d * 10^(-s)] nearer to [num / den] than [(d + 1) * 10^(-s)], or
    as near and [d] even? *)
Definition lower_is_nearer (num den s d : Z) : bool :=
  let '(a, b) :=
    if 0 <=? s then (2 * num * 10 ^ s, den) else (2 * num, den * 10 ^ (- s)) in
  match a ?= (2 * d + 1) * b with
  | Lt => true
  | Gt => false
  | Eq => Z.even d
  end.

Definition reads_as (m : positive) (e : Z) (y : float) : bool :=
  match y with
  | S754_finite false m' e' => (m =? m')%positive && (e =? e')
  | _ => false
  end.

(** The digits of a [p]-digit decimal that reads back as
    [S754_finite false m e], if there is one: the decimal is
    [d * 10^(-s)]. *)
Definition candidate (m : positive) (e : Z) (k : Z) (p : Z) : option (Z * Z) :=
  let '(num, den) := fraction m e in
  let s := p - 1 - k in
  let d := scaled_floor num den s in
  let ok (d : Z) := reads_as m e (round_decimal false d (- s)) in
  match ok d, ok (d + 1) with
  | true, true => Some (if lower_is_nearer num den s d then d else d + 1, s)
  | true, false => Some (d, s)
  | false, true => Some (d + 1, s)
  | false, false => None
  end.

Fixpoint shortest (fuel : nat) (m : positive) (e k p : Z) : Z * Z :=
  match fuel with
  | O => (scaled_floor (fraction m e).1 (fraction m e).2 (p - 1 - k), p - 1 - k)
  | S fuel' =>
      match candidate m e k p with
      | Some c => c
      | None => shortest fuel' m e k (p + 1)
      end
  end.

(** Trailing zeros of the digits move into the exponent. *)
Fixpoint strip_zeros (fuel : nat) (d s : Z) : Z * Z :=
  match fuel with
  | O => (d, s)
  | S fuel' =>
      if (d mod 10 =? 0) && negb (d =? 0) then strip_zeros fuel' (d / 10) (s - 1)
      else (d, s)
  end.

(** The digits of [repr] and the position of the decimal point after
    the first [decpt] of them. *)
Definition repr_digits (m : positive) (e : Z) : str * Z :=
  let '(num, den) := fraction m e in
  let k := log10_floor num den in
  let '(d, s) := shortest 17 m e k 1 in
  let '(d, s) := strip_zeros 20 d s in
  let ds := nat_digits d in
  (ds, Z.of_nat (length ds) - s).

Definition zeros (n : Z) : str := repeat 48%N (Z.to_nat n).

Definition exponent_text (ex : Z) : str :=
  let ds := nat_digits (Z.abs ex) in
  (if ex <? 0 then 45%N else 43%N)
    :: (if Z.abs ex <? 10 then 48%N :: ds else ds).

Definition repr_finite (m : positive) (e : Z) : str :=
  let '(ds, decpt) := repr_digits m e in
  let n := Z.of_nat (length ds) in
  if (decpt <=? -4) || (16 <? decpt) then
    match ds with
    | [] => []
    | d1 :: rest =>
        d1 :: (match rest with [] => [] | _ => 46%N :: rest end)
          ++ 101%N :: exponent_text (decpt - 1)
    end
  else if decpt <=? 0 then lit "0." ++ zeros (- decpt) ++ ds
  else if n <=? decpt then ds ++ zeros (decpt - n) ++ lit ".0"
  else take (Z.to_nat decpt) ds ++ 46%N :: drop (Z.to_nat decpt) ds.

Definition repr_float (x : float) : str :=
  match x with
  | S754_nan => lit "nan"
  | S754_infinity s => sign_text s ++ lit "inf"
  | S754_zero s => sign_text s ++ lit "0.0"
  | S754_finite s m e => sign_text s ++ repr_finite m e
  end.

End Fmt.

(* ================================================================= *)
(** ** [export_to_html] *)

Module Html.
Import Py PA Fmt.

Definition nl : str := [10%N].
Definition quote : str := [34%N].

(** Lines 89-108: the text of the first [write]. *)
Definition page_head : str :=
  concat
  [ nl; lit "            <!DOCTYPE html>"; nl; lit "            <html>"; nl;
    lit "            <head>"; nl; lit "                <meta charset=";
    quote; lit "UTF-8"; quote; lit ">"; nl;
    lit "                <meta name="; quote; lit "viewport"; quote;
    lit " content="; quote; lit "width=device-width, initial-scale=1.0";
    quote; lit ">"; nl;
    lit "                <title>Позиции продуктов</title>"; nl;
    lit "            </head>"; nl; lit "            "; nl;
    lit "            <body>"; nl; lit "                <table border=1>"; nl;
    lit "                    <tr>"; nl;
    lit "                        <th>№</th>"; nl;
    lit "                        <th>Наименование</th>"; nl;
    lit "                        <th>Цена</th>"; nl;
    lit "                        <th>Вес</th>"; nl;
    lit "                        <th>Файл</th>"; nl;
    lit "                        <th>Цена за кг.</th>"; nl;
    lit "                    </tr>"; nl; lit "            " ].

(** Lines 111-120: the text written for one entry, numbered. *)
Definition table_row (number : Z) (x : entry) : str :=
  concat
  [ nl; lit "                    <tr>"; nl;
    lit "                        <td>"; str_of_int number; lit "</td>"; nl;
    lit "                        <td>"; name x; lit "</td>"; nl;
    lit "                        <td>"; repr_float (price x); lit "</td>";
    nl; lit "                        <td>"; repr_float (weight x);
    lit "</td>"; nl; lit "                        <td>"; file x; lit "</td>";
    nl; lit "                        <td>"; format_2f (price_per_kg x);
    lit "</td>"; nl; lit "                    </tr>"; nl;
    lit "                " ].

(** Lines 121-129: the text of the last [write]. *)
Definition page_foot : str :=
  concat
  [ nl; lit "                </table>"; nl; lit "            <footer>"; nl;
    lit "                <hr>"; nl;
    lit "                Табличка с рамочками"; nl;
    lit "            </footer>"; nl; lit "            </body>"; nl;
    lit "            </html>"; nl; lit "            " ].

(** The loop of lines 109-120 when every [write] goes through: the
    rows of [data], numbered from [number] on, written after [out]. *)
Fixpoint write_rows (number : Z) (data : list entry) (out : str) : str :=
  match data with
  | [] => out
  | x :: rest => write_rows (number + 1) rest (out ++ table_row number x)
  end.

(** The text the three stages write, in order, when every [write] goes
    through. *)
Definition document (data : list entry) : str :=
  write_rows 1 data page_head ++ page_foot.

(** Line 86: the default of [fname]. *)
Definition default_fname : str := lit "output.html".

(** The file is opened with [encoding='utf-8'] and the default error
    handling, [strict]: the code points a [str] can hold and UTF-8
    cannot are the surrogates U+D800 to U+DFFF (a file name that is not
    valid UTF-8 comes out of [os.listdir] with such code points). *)
Definition encodable (c : N) : bool := (c <? 0xD800)%N || (0xDFFF <? c)%N.

(** [htmlfile.write(text)] on a file that holds [out]: the text is
    encoded first, so a text that cannot be encoded adds nothing and
    raises [UnicodeEncodeError].  The device is taken to accept what is
    written. *)
Definition write (text : str) (out : str) : str * option exn :=
  if forallb encodable text then (out ++ text, None)
  else (out, Some ValueError).

(** Lines 109-120: the loop ends at the first [write] that raises. *)
Fixpoint write_table (number : Z) (data : list entry) (out : str)
  : str * option exn :=
  match data with
  | [] => (out, None)
  | x :: rest =>
      match write (table_row number x) out with
      | (out, None) => write_table (number + 1) rest out
      | (out, Some e) => (out, Some e)
      end
  end.

(** Lines 89-129: what the file holds when the [with] block is left, and
    the exception that leaves it, if any. *)
Definition write_page (data : list entry) : str * option exn :=
  match write page_head [] with
  | (out, None) =>
      match write_table 1 data out with
      | (out, None) => write page_foot out
      | (out, Some e) => (out, Some e)
      end
  | (out, Some e) => (out, Some e)
  end.

(** [export_to_html].  [open_w fname] is [open(fname, 'w')]: it raises
    when the file cannot be opened for writing, and empties the file
    otherwise.  [files] maps the files written so far to their text (the
    text is kept as code points; what is written before a [write] that
    raises reaches the file when the [with] block closes it).  The
    result is [files] after the call, [self], and the exception that
    leaves the method, if any. *)
Definition export_to_html (open_w : str → result unit)
    (files : gmap str str) (self : PriceAnalyzer) (fname : str)
  : gmap str str * PriceAnalyzer * option exn :=
  match open_w fname with
  | Raise e => (files, self, Some e)
  | Ok _ =>
      let '(out, e) := write_page (data self) in
      (<[fname := out]> files, self, e)
  end.

End Html.

(* ================================================================= *)
(** ** [interactive_search] *)

Module Shell.
Import Py PA.

(** A cell handed to [tabulate]. *)
Inductive value :=
| VInt (n : Z)
| VStr (s : str)
| VFloat (x : float).

(** What goes to the standard output: the text of a [print], or the
    prompt of an [input].  The standard output is taken to accept every
    text. *)
Inductive event :=
| Print (s : str)
| Prompt (s : str).

(** How the loop ends: by [break], or with the [EOFError] of [input]
    when the standard input has no line left. *)
Inductive ending :=
| Finished
| EOFError.

(** Lines 143-144. *)
Definition headers : list str :=
  [lit "№"; lit "Наименование"; lit "Цена"; lit "Вес"; lit "Файл";
   lit "Цена за кг."].

(** Line 145: [[i + 1, *result]]. *)
Definition table_line (i : nat) (result : entry) : list value :=
  [VInt (Z.of_nat i + 1); VStr (name result); VFloat (price result);
   VFloat (weight result); VStr (file result); VFloat (price_per_kg result)].

Section Loop.

(** [tabulate(rows, headers=headers, tablefmt="grid")] of the package
    [tabulate], which is no part of the program. *)
Variable tabulate : list (list value) → list str → str.

(** Lines 139-146: what is printed for a query. *)
Definition answer (self : PriceAnalyzer) (query : str)
  : event * PriceAnalyzer :=
  let '(results, self) := find_text self query in
  match results with
  | [] => (Print (lit "Ничего не найдено."), self)
  | _ => (Print (tabulate (imap table_line results) headers), self)
  end.

(** Line 136. *)
Definition is_exit (line : str) : bool :=
  str_eqb (lower (strip line)) (lit "exit").

(** Lines 134-146.  [stdin] holds the lines [input] will return; the
    result is the output so far, the lines left unread, how the loop
    ended and [self]. *)
Fixpoint search_loop (self : PriceAnalyzer) (stdin : list str)
    (out : list event) : list event * list str * ending * PriceAnalyzer :=
  match stdin with
  | [] => (out ++ [Prompt (lit "Поиск: ")], [], EOFError, self)
  | line :: rest =>
      let out := out ++ [Prompt (lit "Поиск: ")] in
      if is_exit line then
        (out ++ [Print (lit "Работа завершена.")], rest, Finished, self)
      else
        let '(ev, self) := answer self (strip line) in
        search_loop self rest (out ++ [ev])
  end.

(** [interactive_search] *)
Definition interactive_search (self : PriceAnalyzer) (stdin : list str)
  : list event * list str * ending * PriceAnalyzer :=
  search_loop self stdin
    [Print (lit "Введите текст для поиска. Для выхода введите 'exit'.")].

End Loop.

End Shell.

(* ================================================================= *)
(** ** The program (lines 150-155) *)

Module Main.
Import Py PA Html Shell.

(** Line 151. *)
Definition folder : str := lit "./price_lists".

(** Where a run of the program ends: with the exception that leaves
    [load_prices] or [export_to_html], or in the dialogue. *)
Inductive halt :=
| Load_raised (e : exn)
| Export_raised (e : exn)
| Searched (how : ending).

(** A run of the program: where it ends, the state of the analyzer, the
    files written, what went to the standard output and the lines of the
    standard input left unread. *)
Record run := Run {
  halted : halt;
  final : state;
  written : gmap str str;
  printed : list event;
  unread : list str
}.

Definition main (tabulate : list (list value) → list str → str)
    (fs : filesystem) (open_w : str → result unit) (files : gmap str str)
    (stdin : list str) : run :=
  match load_prices fs (start folder) with
  | Raise e => Run (Load_raised e) (start folder) files [] stdin
  | Ok st =>
      match export_to_html open_w files (self st) default_fname with
      | (files, analyzer, Some e) =>
          Run (Export_raised e)
            {| self := analyzer; log := log st; opened := opened st |}
            files [] stdin
      | (files, analyzer, None) =>
          let '(out, unread, how, analyzer) :=
            interactive_search tabulate analyzer stdin in
          Run (Searched how)
            {| self := analyzer; log := log st; opened := opened st |}
            files out unread
      end
  end.

End Main.

(* ================================================================= *)
(** ** Further notions used in the statements *)

Module Notions.
Import Py Csv PA Fmt Html Shell.
(** A row that gives an entry, or fails with [KeyError], [ValueError]
    or [TypeError]. *)
Definition row_passes (file : str) (columns : gmap str str)
    (row : gmap str cell) : Prop :=
  match make_entry file columns row with
  | Ok _ => True
  | Raise e => e = KeyError ∨ e = ValueError ∨ e = TypeError
  end.

(** What a row that passes adds to the catalog, and to the log. *)
Definition row_entry (file : str) (columns : gmap str str)
    (row : gmap str cell) : option entry :=
  match make_entry file columns row with
  | Ok x => Some x
  | Raise _ => None
  end.

Definition row_error (file : str) (columns : gmap str str)
    (row : gmap str cell) : option log_record :=
  match make_entry file columns row with
  | Ok _ => None
  | Raise e => Some (Error_row file e)
  end.

(** The cell of a record at a position, as a row dictionary has it:
    [None] past the end of the record. *)
Definition cell_at (row : list str) (i : nat) : cell :=
  match row !! i with
  | Some v => Str v
  | None => PyNone
  end.

(** The rows of a table, numbered from [number] on. *)
Definition table_rows (number : Z) (data : list entry) : str :=
  concat (imap (λ i x, table_row (number + Z.of_nat i) x) data).



(** An entry whose name and file name hold no surrogate, the code
    points U+D800 to U+DFFF. *)
Definition surrogate (c : N) : bool := between 0xD800 0xDFFF c.

Definition printable (x : entry) : bool :=
  forallb (λ c, negb (surrogate c)) (name x ++ file x).

(** The entries before the first one that is not printable. *)
Fixpoint printable_prefix (data : list entry) : list entry :=
  match data with
  | x :: rest => if printable x then x :: printable_prefix rest else []
  | [] => []
  end.

(** What [export_to_html] leaves in a file it could open, and the
    exception that leaves it: the whole page, or the head and the rows
    before the row that cannot be encoded. *)
Definition page_written (data : list entry) : str * option exn :=
  if forallb printable data then (document data, None)
  else (page_head ++ table_rows 1 (printable_prefix data), Some ValueError).

End Notions.

(* ================================================================= *)
(** ** Further sample inputs *)

Module Samples.
Import Py Csv PA Shell.

(** A directory with a file that cannot be opened and a file without
    any record, next to a price list. *)
Definition fs_odd : filesystem :=
  {| listdir p :=
       if str_eqb p Demo.folder
       then Ok [lit "price_locked.csv"; lit "price_empty.csv";
                lit "price_1.csv"]
       else Raise OSError;
     open_csv :=
       Demo.records_at
         [ (lit "price_empty.csv", []);
           (lit "price_1.csv",
            [ Demo.header; [lit "Масло"; lit "200"; lit "0.5"] ]) ] |}.

(** The state after a second [load_prices] on [Demo.fs_shop]. *)
Definition reloaded : state :=
  match load_prices Demo.fs_shop (Demo.loaded Demo.fs_shop) with
  | Ok st => st
  | Raise _ => Demo.loaded Demo.fs_shop
  end.

Definition columns : gmap str str := resolve_columns Demo.header.

(** Rows of a price list: a good one, one with a price that is no
    number, one of weight zero, a good one. *)
Definition row_milk : gmap str cell :=
  row_dict Demo.header [lit "Молоко"; lit "60"; lit "1"].
Definition row_cheese : gmap str cell :=
  row_dict Demo.header [lit "Сыр"; lit "abc"; lit "1"].
Definition row_zero : gmap str cell :=
  row_dict Demo.header [lit "A"; lit "10"; lit "0"].
Definition row_butter : gmap str cell :=
  row_dict Demo.header [lit "Масло"; lit "200"; lit "0.5"].

(** The row of butter in a file with one more column. *)
Definition row_butter_wide : gmap str cell :=
  row_dict (Demo.header ++ [lit "id"])
    [lit "Масло"; lit "200"; lit "0.5"; lit "7"].

Definition shop : PriceAnalyzer := self (Demo.loaded Demo.fs_shop).

(** A stand-in for [tabulate]: the number of rows, as text. *)
Definition count_rows (rows : list (list value)) (headers : list str) : str :=
  Fmt.str_of_int (Z.of_nat (length rows)).

Definition always_opens (fname : str) : result unit := Ok ().

(** A price list that cannot be decoded after its second row. *)
Definition fs_broken : filesystem :=
  {| listdir p :=
       if str_eqb p Demo.folder then Ok [lit "price_1.csv"]
       else Raise OSError;
     open_csv p :=
       if str_eqb p (OsPath.join Demo.folder (lit "price_1.csv"))
       then Ok ([ Demo.header;
                  [lit "Молоко"; lit "60"; lit "1"];
                  [lit "Сыр"; lit "abc"; lit "1"] ], Some ValueError)
       else Raise OSError |}.

(** A file name that is not valid UTF-8: [os.listdir] gives the byte
    0xFF as the surrogate U+DCFF. *)
Definition odd_name : str := lit "price_" ++ [0xDCFF%N] ++ lit ".csv".

Definition fs_odd_name : filesystem :=
  Demo.directory
    [ (lit "price_1.csv", [ Demo.header; [lit "Масло"; lit "200"; lit "0.5"] ]);
      (odd_name, [ Demo.header; [lit "Сыр"; lit "300"; lit "1"] ]);
      (lit "price_3.csv", [ Demo.header; [lit "Хлеб"; lit "30"; lit "0.4"] ]) ].

(** A price list with names on which lower-casing is not case folding:
    [STRASSE], and [ΑΣ], a capital alpha and a capital sigma. *)
Definition fs_fold : filesystem :=
  Demo.directory
    [ (lit "price_1.csv",
       [ Demo.header;
         [lit "STRASSE"; lit "1"; lit "1"];
         [lit "ΑΣ"; lit "2"; lit "1"] ]) ].

End Samples.

(* ================================================================= *)
(** * Properties *)

Import Py Csv PA Frame.

(** ** Strings *)

(** [startswith] and [contains] say what they should. *)
Lemma startswith_spec (s pre : str) :
  startswith s pre = true ↔ ∃ post, s = pre ++ post.
Proof.
  revert s. induction pre as [|p pre IH]; intros s; simpl.
  { split; [intros _; by exists s|by destruct s]. }
  destruct s as [|c s]; simpl.
  { split; [done|]. by intros (post & ?). }
  rewrite andb_true_iff, N.eqb_eq, IH. split.
  - intros (-> & post & ->). by exists post.
  - intros (post & [= -> ->]). split; [done|by exists post].
Qed.

Lemma contains_spec (s sub : str) :
  contains s sub = true ↔ ∃ pre post, s = pre ++ sub ++ post.
Proof.
  induction s as [|c s IH]; cbn [contains].
  - rewrite orb_false_r, startswith_spec. split.
    + intros (post & ->). by exists [], post.
    + intros (pre & post & H). symmetry in H.
      apply app_eq_nil in H as [-> H]. by exists post.
  - rewrite orb_true_iff, startswith_spec, IH. split.
    + intros [(post & ->) | (pre & post & ->)].
      * by exists [], post.
      * by exists (c :: pre), post.
    + intros ([|c' pre] & post & H); simpl in H.
      * left. by exists post.
      * injection H as -> ->. right. by exists pre, post.
Qed.

(** ** Letter case *)

Lemma all_from_spec (fuel : nat) (c0 : N) (p : N → bool) :
  all_from fuel c0 p = true →
  ∀ c, (c0 ≤ c < c0 + N.of_nat fuel)%N → p c = true.
Proof.
  revert c0. induction fuel as [|fuel IH]; intros c0 H c Hc; [lia|].
  simpl in H. apply andb_true_iff in H as [H0 H].
  destruct (N.eq_dec c c0) as [->|Hne]; [done|].
  apply (IH _ H). lia.
Qed.

Ltac bools :=
  repeat match goal with
  | H : _ && _ = true |- _ => apply andb_true_iff in H as [? ?]
  | H : _ || _ = true |- _ => apply orb_true_iff in H as [?|?]
  | H : _ && _ = false |- _ => apply andb_false_iff in H as [?|?]
  | H : _ || _ = false |- _ => apply orb_false_iff in H as [? ?]
  | H : negb _ = true |- _ => apply negb_true_iff in H
  | H : negb _ = false |- _ => apply negb_false_iff in H
  | H : (_ <=? _)%N = true |- _ => apply N.leb_le in H
  | H : (_ <=? _)%N = false |- _ => apply N.leb_gt in H
  | H : (_ <? _)%N = true |- _ => apply N.ltb_lt in H
  | H : (_ <? _)%N = false |- _ => apply N.ltb_ge in H
  | H : (_ =? _)%N = true |- _ => apply N.eqb_eq in H
  | H : (_ =? _)%N = false |- _ => apply N.eqb_neq in H
  end.

Lemma plain_letter_cases (d : N) :
  plain_letter d = true ↔
  (0x430 ≤ d ≤ 0x44F ∨ 97 ≤ d ≤ 106 ∨ 108 ≤ d ≤ 122)%N.
Proof.
  unfold plain_letter, small_letter, between.
  rewrite !andb_true_iff, !orb_true_iff, !andb_true_iff, !N.leb_le,
    negb_true_iff, N.eqb_neq. lia.
Qed.

Lemma small_letter_cases (d : N) :
  small_letter d = true ↔ (97 ≤ d ≤ 122 ∨ 0x430 ≤ d ≤ 0x44F)%N.
Proof.
  unfold small_letter, between.
  rewrite !orb_true_iff, !andb_true_iff, !N.leb_le. tauto.
Qed.

Lemma plain_letter_small (d : N) :
  plain_letter d = true → small_letter d = true.
Proof. unfold plain_letter. by intros [? _]%andb_true_iff. Qed.

(** A lower-case mapping that reaches a plain letter comes from 32 code
    points below it. *)
Lemma lower_ranges_plain :
  Forall (λ r : N * N * N * N,
            r.2 = (r.1.1.1 + 32)%N ∨
            ∀ t, (r.2 ≤ t ≤ r.2 + (r.1.1.2 - r.1.1.1))%N →
                 plain_letter t = false)
    lower_ranges.
Proof.
  assert (Forall (λ r : N * N * N * N,
            r.2 = r.1.1.1 + 32 ∨
            ((r.2 + (r.1.1.2 - r.1.1.1) < 0x430 ∨ 0x44F < r.2)
             ∧ (r.2 + (r.1.1.2 - r.1.1.1) < 97 ∨ 106 < r.2)
             ∧ (r.2 + (r.1.1.2 - r.1.1.1) < 108 ∨ 122 < r.2)))%N
            lower_ranges) as H.
  { apply (bool_decide_unpack _). by vm_compute. }
  eapply Forall_impl; [exact H|]. intros r [?|Hr]; [by left|right].
  intros t Ht. destruct (plain_letter t) eqn:Hp; [|done].
  apply plain_letter_cases in Hp. lia.
Qed.

Lemma lower_cp_plain (c : N) :
  plain_letter (lower_cp c) = true → either_case c (lower_cp c).
Proof.
  unfold lower_cp, map_range, either_case.
  destruct (find (in_range c) lower_ranges) as [[[[lo hi] step] to]|] eqn:Hf;
    simpl; [|auto].
  apply find_some in Hf as [Hin Hr].
  pose proof lower_ranges_plain as Hall. rewrite Forall_forall in Hall.
  apply list_elem_of_In, Hall in Hin. simpl in Hin.
  unfold in_range, between in Hr. bools.
  destruct Hin as [->|Hin]; [intros _; right; lia|].
  intros Hp. rewrite Hin in Hp; [done|lia].
Qed.

Lemma lower_cp_small (d : N) :
  small_letter d = true → lower_cp d = d ∧ lower_cp (d - 32) = d.
Proof.
  intros Hd.
  assert (all_from 1104 0
            (λ d, negb (small_letter d)
                  || ((lower_cp d =? d) && (lower_cp (d - 32) =? d)))%N = true)
    as Hall by by vm_compute.
  assert (0 ≤ d < 0 + N.of_nat 1104)%N as Hlt
    by (apply small_letter_cases in Hd; lia).
  pose proof (all_from_spec _ _ _ Hall d Hlt) as H. cbv beta in H.
  rewrite Hd in H. cbn [negb orb] in H. bools. split; assumption.
Qed.

(** A word of small letters in any mix of letter cases lower-cases to
    the word, whatever stands around it. *)
Lemma lower_from_spelled (before w k after : str) :
  Forall (λ d, small_letter d = true) k → spells w k →
  lower_from before (w ++ after) = k ++ lower_from (rev w ++ before) after.
Proof.
  intros Hk Hw. revert before. induction Hw as [|c d w k Hc Hw IH]; intros before.
  { done. }
  apply Forall_cons in Hk as [Hd Hk].
  cbn [app lower_from rev]. rewrite IH, <- app_assoc by done. cbn [app].
  f_equal. destruct (lower_cp_small d Hd) as [H1 H2].
  apply small_letter_cases in Hd. unfold lower_at, to_lower_full.
  assert ((c =? 0x3A3)%N = false) as ->
    by (apply N.eqb_neq; destruct Hc; lia).
  assert ((c =? 0x130)%N = false) as ->
    by (apply N.eqb_neq; destruct Hc; lia).
  destruct Hc as [->| <-]; [by rewrite H1|].
  by replace (c + 32 - 32)%N with c in H2 by lia; rewrite H2.
Qed.

Lemma lower_from_prefix (before pre s : str) :
  ∃ out, lower_from before (pre ++ s)
         = out ++ lower_from (rev pre ++ before) s.
Proof.
  revert before. induction pre as [|c pre IH]; intros before.
  { by exists []. }
  destruct (IH (c :: before)) as (out & Hout).
  exists (lower_at before c (pre ++ s) ++ out).
  cbn [app lower_from rev]. by rewrite Hout, <- !app_assoc.
Qed.

(** The strings that lower-case to a word of plain letters are the
    spellings of the word in any mix of letter cases.  (A capital sigma
    gives a sigma and U+0130 gives a dot above after its i, neither of
    which is a plain letter.) *)
Lemma lower_from_plain (before s k : str) :
  Forall (λ d, plain_letter d = true) k →
  lower_from before s = k ↔ spells s k.
Proof.
  unfold spells. revert before k. induction s as [|c s IH]; intros before k Hk.
  { simpl. split; [intros <-; constructor|by intros ->%Forall2_nil_inv_l]. }
  cbn [lower_from]. unfold lower_at, to_lower_full.
  destruct (c =? 0x3A3)%N eqn:Hsigma; [|destruct (c =? 0x130)%N eqn:Hdot];
    bools.
  - subst c. split.
    + intros <-. apply Forall_cons in Hk as [Hk _].
      by destruct (final_sigma before s).
    + intros (d & k' & [<-|<-] & _ & ->)%Forall2_cons_inv_l;
        by apply Forall_cons in Hk as [Hk _].
  - subst c. split.
    + intros <-. apply Forall_cons in Hk as [_ Hk].
      by apply Forall_cons in Hk as [Hk _].
    + intros (d & k' & [<-|<-] & _ & ->)%Forall2_cons_inv_l;
        by apply Forall_cons in Hk as [Hk _].
  - simpl. split.
    + intros <-. apply Forall_cons in Hk as [Hd Hk].
      constructor; [by apply lower_cp_plain|]. by apply (IH (c :: before)).
    + intros (d & k' & Hc & Hs & ->)%Forall2_cons_inv_l.
      apply Forall_cons in Hk as [Hd Hk].
      destruct (lower_cp_small d (plain_letter_small d Hd)) as [H1 H2]. f_equal.
      * destruct Hc as [->| <-]; [done|].
        by replace (c + 32 - 32)%N with c in H2 by lia.
      * by apply (IH (c :: before)).
Qed.

Lemma lower_spells (s k : str) :
  Forall (λ d, plain_letter d = true) k → lower s = k ↔ spells s k.
Proof. apply lower_from_plain. Qed.

(** ** Order of binary64 values *)

Ltac order_step :=
  match goal with
  | |- context [(?a ?= ?b)%Z] => destruct (Z.compare_spec a b)
  | H : context [(?a ?= ?b)%Z] |- _ => destruct (Z.compare_spec a b)
  | |- context [PosDef.Pos.compare_cont Eq ?a ?b] =>
      let Hc := fresh in
      pose proof (Pos.compare_spec a b) as Hc;
      change (a ?= b)%positive with (PosDef.Pos.compare_cont Eq a b) in Hc;
      destruct Hc
  | H : context [PosDef.Pos.compare_cont Eq ?a ?b] |- _ =>
      let Hc := fresh in
      pose proof (Pos.compare_spec a b) as Hc;
      change (a ?= b)%positive with (PosDef.Pos.compare_cont Eq a b) in Hc;
      destruct Hc
  end.

Ltac order_cases :=
  repeat order_step; simpl in *; subst; try congruence; try lia; auto.

Ltac float_cases x := destruct x as [[]|[]| |[] ? ?].

Lemma flt_asym (x y : float) : flt x y = true → flt y x = false.
Proof.
  unfold flt, SFltb, SFcompare.
  float_cases x; float_cases y; simpl; try congruence;
    intros H; order_cases.
Qed.

(** Whatever is not NaN falls on one side of a strict inequality. *)
Lemma flt_neg_trans (x y z : float) :
  flt x z = true → isnan y = false → flt x y = true ∨ flt y z = true.
Proof.
  unfold flt, SFltb, SFcompare.
  float_cases x; float_cases z; simpl; try congruence;
    float_cases y; simpl; try congruence; auto;
    intros H _; order_cases.
Qed.

(** Two values equal ([==]) to a third are not in strict order. *)
Lemma feq_no_lt (x y k : float) :
  SFeqb x k = true → SFeqb y k = true → flt x y = false.
Proof.
  unfold flt, SFltb, SFeqb, SFcompare.
  float_cases x; float_cases k; simpl; try congruence;
    float_cases y; simpl; try congruence; auto;
    intros H1 H2; order_cases.
Qed.

(** Apart from NaN, [<=] is the negation of [>]. *)
Lemma fle_of_not_flt (x y : float) :
  isnan x = false → isnan y = false → flt y x = false → fle x y = true.
Proof.
  unfold flt, fle, SFltb, SFleb, SFcompare.
  float_cases x; float_cases y; simpl; try congruence;
    intros _ _ H; order_cases.
Qed.

Lemma feq_refl (x : float) : isnan x = false → SFeqb x x = true.
Proof.
  unfold SFeqb, SFcompare. float_cases x; simpl; try congruence;
    intros _; rewrite Z.compare_refl;
    change (PosDef.Pos.compare_cont Eq ?p ?q) with (Pos.compare p q);
    by rewrite Pos.compare_refl.
Qed.

Lemma fle_antisym (x y : float) :
  fle x y = true → fle y x = true → SFeqb y x = true.
Proof.
  unfold fle, SFleb, SFeqb, SFcompare.
  float_cases x; float_cases y; simpl; try congruence;
    intros H1 H2; order_cases.
Qed.

(** ** Division *)

Section Division.
Local Open Scope Z_scope.

(** Rounding a non-negative integer significand never gives NaN. *)
Lemma shr_1_nonneg mrs : 0 ≤ shr_m mrs → 0 ≤ shr_m (shr_1 mrs).
Proof. destruct mrs as [[|[p|p|]|p] r s]; simpl; lia. Qed.

Lemma iter_pos_nonneg n mrs :
  0 ≤ shr_m mrs → 0 ≤ shr_m (SpecFloat.iter_pos shr_1 n mrs).
Proof.
  revert mrs. induction n as [n IH|n IH|]; intros mrs H; simpl.
  - by apply IH, IH, shr_1_nonneg.
  - by apply IH, IH.
  - by apply shr_1_nonneg.
Qed.

Lemma shr_fexp_nonneg m e l :
  0 ≤ m → 0 ≤ shr_m (shr_fexp prec emax m e l).1.
Proof.
  intros Hm. unfold shr_fexp, shr.
  assert (0 ≤ shr_m (shr_record_of_loc m l)) as H0
    by by destruct l as [|[]].
  destruct (_ - e); simpl; [done| |done]. by apply iter_pos_nonneg.
Qed.

Lemma round_nearest_even_nonneg m l : 0 ≤ m → 0 ≤ round_nearest_even m l.
Proof.
  intros Hm. destruct l as [|[]]; simpl; try lia. destruct (Z.even m); lia.
Qed.

Lemma binary_round_aux_not_nan sx mx ex lx :
  0 ≤ mx → isnan (binary_round_aux prec emax sx mx ex lx) = false.
Proof.
  intros Hm. unfold binary_round_aux.
  pose proof (shr_fexp_nonneg mx ex lx Hm) as H1.
  destruct (shr_fexp prec emax mx ex lx) as [mrs' e']. simpl in H1.
  pose proof (shr_fexp_nonneg _ e' loc_Exact
                (round_nearest_even_nonneg _ (loc_of_shr_record mrs') H1)) as H2.
  destruct (shr_fexp prec emax _ e' loc_Exact) as [mrs'' e'']. simpl in H2.
  destruct (shr_m mrs''); [done| |lia]. by destruct (_ <=? _).
Qed.

(** The quotient of two finite numbers is not NaN unless both are zero. *)
Lemma SFdiv_finite_not_nan (x y : float) :
  isfinite x = true → isfinite y = true → is_zero y = false →
  isnan (SFdiv prec emax x y) = false.
Proof.
  destruct x as [sx|sx| |sx mx ex], y as [sy|sy| |sy my ey]; simpl; try done.
  intros _ _ _. unfold SFdiv_core_binary.
  set (m' := match _ - _ with 0 => Z.pos mx | Z.pos _ => _ | Z.neg _ => 0 end).
  assert (0 ≤ m') as Hm'.
  { unfold m'. destruct (_ - _ - _); [lia| |lia]. by apply Z.shiftl_nonneg. }
  pose proof (Z.div_pos m' (Z.pos my) Hm' eq_refl) as Hq.
  unfold Z.div in Hq. destruct (Z.div_eucl m' (Z.pos my)) as [q r].
  by apply binary_round_aux_not_nan.
Qed.

End Division.

(** ** [sorted] *)

Section SortedFacts.
Context {A : Type} (key : A → float).

Lemma no_nan_Forall l :
  no_nan key l = true ↔ Forall (λ x, isnan (key x) = false) l.
Proof.
  unfold no_nan. rewrite forallb_forall, Forall_forall.
  split; intros H x Hx.
  - apply list_elem_of_In, H in Hx. by apply negb_true_iff.
  - apply negb_true_iff, H, list_elem_of_In, Hx.
Qed.

Lemma insert_back_perm x acc : insert_back key x acc ≡ₚ x :: acc.
Proof.
  induction acc as [|y acc IH]; simpl; [done|].
  destruct (flt (key x) (key y)); [|done].
  rewrite IH. apply Permutation_swap.
Qed.

Lemma fold_insert_back_perm l acc :
  fold_left (λ acc x, insert_back key x acc) l acc ≡ₚ l ++ acc.
Proof.
  revert acc. induction l as [|x l IH]; intros acc; simpl; [done|].
  rewrite IH, insert_back_perm. by rewrite Permutation_middle.
Qed.

Lemma sorted_perm l : sorted key l ≡ₚ l.
Proof.
  unfold sorted. rewrite <- Permutation_rev, fold_insert_back_perm.
  by rewrite app_nil_r.
Qed.

Lemma insert_back_tied k x acc :
  tied key k (insert_back key x acc) = tied key k (x :: acc).
Proof.
  unfold tied. induction acc as [|y acc IH]; simpl; [done|].
  destruct (flt (key x) (key y)) eqn:Hlt; [|done].
  simpl. rewrite IH. simpl.
  destruct (SFeqb (key x) k) eqn:Hx, (SFeqb (key y) k) eqn:Hy; try done.
  by rewrite (feq_no_lt _ _ _ Hx Hy) in Hlt.
Qed.

Lemma fold_insert_back_tied k l acc :
  tied key k (fold_left (λ acc x, insert_back key x acc) l acc)
  = rev (tied key k l) ++ tied key k acc.
Proof.
  revert acc. induction l as [|x l IH]; intros acc; simpl; [done|].
  rewrite IH, insert_back_tied. unfold tied. simpl.
  destruct (SFeqb (key x) k); simpl; [|done].
  by rewrite <- app_assoc.
Qed.

(** Stability: elements with equal keys keep their relative order. *)
Lemma sorted_stable k l : tied key k (sorted key l) = tied key k l.
Proof.
  unfold sorted, tied. rewrite filter_rev.
  fold (tied key k (fold_left (λ acc x, insert_back key x acc) l [])).
  rewrite fold_insert_back_tied. simpl.
  by rewrite app_nil_r, rev_involutive.
Qed.

(** The accumulator is kept in descending order. *)
Lemma insert_back_descending x acc :
  isnan (key x) = false →
  Forall (λ y, isnan (key y) = false) acc →
  StronglySorted (flip (in_order key)) acc →
  StronglySorted (flip (in_order key)) (insert_back key x acc).
Proof.
  intros Hx. induction acc as [|y acc IH]; intros Hnan Hs; simpl.
  { repeat constructor. }
  apply Forall_cons in Hnan as [Hy Hnan].
  apply StronglySorted_cons in Hs as [Hall Hs].
  destruct (flt (key x) (key y)) eqn:Hlt.
  - apply StronglySorted_cons. split; [|by apply IH].
    rewrite insert_back_perm. constructor; [|done].
    by apply flt_asym.
  - apply StronglySorted_cons. split; [|by apply StronglySorted_cons].
    constructor; [done|].
    rewrite Forall_forall in Hall |- *. intros z Hz.
    specialize (Hall z Hz). unfold flip, in_order in *.
    destruct (flt (key x) (key z)) eqn:Hxz; [|done].
    destruct (flt_neg_trans _ (key y) _ Hxz Hy); congruence.
Qed.

Lemma fold_insert_back_descending l acc :
  Forall (λ y, isnan (key y) = false) l →
  Forall (λ y, isnan (key y) = false) acc →
  StronglySorted (flip (in_order key)) acc →
  StronglySorted (flip (in_order key))
    (fold_left (λ acc x, insert_back key x acc) l acc).
Proof.
  revert acc. induction l as [|x l IH]; intros acc Hl Hacc Hs; simpl.
  { done. }
  apply Forall_cons in Hl as [Hx Hl].
  apply IH; [done| |by apply insert_back_descending].
  rewrite insert_back_perm. by constructor.
Qed.

Lemma StronglySorted_rev_flip (R : A → A → Prop) l :
  StronglySorted (flip R) l → StronglySorted R (rev l).
Proof.
  induction 1 as [|x l Hs IH Hall]; simpl; [constructor|].
  apply StronglySorted_app. split_and!; [|done|repeat constructor].
  intros y z Hy Hz. apply list_elem_of_singleton in Hz as ->.
  rewrite Forall_forall in Hall. apply Hall.
  by apply list_elem_of_In, in_rev, list_elem_of_In.
Qed.

Lemma sorted_in_order l :
  no_nan key l = true → StronglySorted (in_order key) (sorted key l).
Proof.
  intros Hl%no_nan_Forall. apply StronglySorted_rev_flip.
  apply fold_insert_back_descending; [done|constructor|constructor].
Qed.

(** Without NaN among the keys the result is in ascending order. *)
Lemma sorted_ascending l :
  no_nan key l = true → ascending key (sorted key l).
Proof.
  intros Hl. pose proof (sorted_in_order l Hl) as Hs.
  apply no_nan_Forall in Hl. rewrite <- (sorted_perm l) in Hl.
  unfold ascending. induction Hs as [|x s Hs IH Hall]; [constructor|].
  apply Forall_cons in Hl as [Hx Hl].
  constructor; [by apply IH|].
  rewrite Forall_forall in Hall, Hl |- *. intros y Hy.
  apply fle_of_not_flt; [done|by apply Hl|by apply Hall].
Qed.

(** A list that is one non-descending run comes back unchanged. *)
Lemma fold_insert_back_run l acc :
  Sorted (in_order key) (rev acc ++ l) →
  fold_left (λ acc x, insert_back key x acc) l acc = rev l ++ acc.
Proof.
  revert acc. induction l as [|x l IH]; intros acc Hs; simpl; [done|].
  assert (insert_back key x acc = x :: acc) as ->.
  { destruct acc as [|y acc]; simpl; [done|].
    simpl in Hs. rewrite <- app_assoc in Hs. simpl in Hs.
    clear IH. induction (rev acc) as [|z r IHr]; simpl in Hs.
    - inversion Hs as [|? ? _ Hhd]; subst.
      inversion Hhd as [|? ? Hxy]; subst.
      unfold in_order in Hxy. by rewrite Hxy.
    - inversion Hs; subst. by apply IHr. }
  rewrite IH; [by rewrite <- app_assoc|].
  simpl. by rewrite <- app_assoc.
Qed.

Lemma sorted_run l : Sorted (in_order key) l → sorted key l = l.
Proof.
  intros Hs. unfold sorted. rewrite fold_insert_back_run; [|done].
  by rewrite app_nil_r, rev_involutive.
Qed.

(** Without NaN among the keys there is one ascending arrangement of a
    list that keeps tied elements in their order. *)
Lemma stable_ascending_unique (l1 l2 : list A) :
  Forall (λ x, isnan (key x) = false) l1 →
  l1 ≡ₚ l2 →
  ascending key l1 → ascending key l2 →
  (∀ k, tied key k l1 = tied key k l2) →
  l1 = l2.
Proof.
  revert l2. induction l1 as [|x l1 IH]; intros l2 Hnan Hp Ha1 Ha2 Ht.
  { by apply Permutation_nil in Hp. }
  apply Forall_cons in Hnan as [Hx Hnan].
  destruct l2 as [|y l2]; [by apply Permutation_sym, Permutation_nil_cons in Hp|].
  assert (y = x) as ->.
  { pose proof (Ht (key x)) as Hk. unfold tied in Hk. simpl in Hk.
    rewrite (feq_refl _ Hx) in Hk.
    destruct (SFeqb (key y) (key x)) eqn:Hy; [by injection Hk|].
    exfalso.
    assert (y ∈ x :: l1) as Hy1 by (rewrite Hp; left).
    assert (x ∈ y :: l2) as Hx2 by (rewrite <- Hp; left).
    apply StronglySorted_inv in Ha1 as [_ Ha1].
    apply StronglySorted_inv in Ha2 as [_ Ha2].
    rewrite Forall_forall in Ha1, Ha2.
    apply elem_of_cons in Hy1 as [->|Hy1].
    { by rewrite (feq_refl _ Hx) in Hy. }
    apply elem_of_cons in Hx2 as [->|Hx2].
    { by rewrite (feq_refl _ Hx) in Hy. }
    rewrite (fle_antisym _ _ (Ha1 y Hy1) (Ha2 x Hx2)) in Hy. done. }
  f_equal. apply IH; [done|by apply Permutation_cons_inv in Hp| | |].
  - by apply StronglySorted_inv in Ha1 as [? _].
  - by apply StronglySorted_inv in Ha2 as [? _].
  - intros k. specialize (Ht k). unfold tied in *. simpl in Ht.
    destruct (SFeqb (key x) k); [by injection Ht|done].
Qed.

(** So on keys without NaN [sorted] is the stable ascending sort. *)
Lemma sorted_unique (l l' : list A) :
  no_nan key l = true →
  l' ≡ₚ l → ascending key l' → (∀ k, tied key k l' = tied key k l) →
  l' = sorted key l.
Proof.
  intros Hnan Hp Ha Ht. apply stable_ascending_unique; [| |done| |].
  - rewrite Hp. by apply no_nan_Forall.
  - by rewrite sorted_perm.
  - by apply sorted_ascending.
  - intros k. by rewrite sorted_stable.
Qed.
End SortedFacts.

(** ** The loader *)

Lemma make_entry_ok file columns row x :
  make_entry file columns row = Ok x →
  PA.file x = file ∧ is_zero (weight x) = false ∧
  price_per_kg x = SFdiv prec emax (price x) (weight x).
Proof.
  unfold make_entry. intros H.
  repeat match type of H with
  | mbind _ ?r = Ok _ => destruct r eqn:?; simpl in H; [|discriminate]
  end.
  injection H as <-. simpl.
  match goal with H : truediv _ _ = Ok _ |- _ => revert H end.
  unfold truediv. destruct (is_zero _); [done|]. by intros [= <-].
Qed.

Lemma grow_nil st : grow st [] [] [] = st.
Proof. destruct st as [[? ?] ? ?]. unfold grow. simpl. by rewrite !app_nil_r. Qed.

Lemma grow_grow st n1 l1 p1 n2 l2 p2 :
  grow (grow st n1 l1 p1) n2 l2 p2 = grow st (n1 ++ n2) (l1 ++ l2) (p1 ++ p2).
Proof. unfold grow. simpl. by rewrite !app_assoc. Qed.

Lemma append_grow x st : append x st = grow st [x] [] [].
Proof. unfold append, grow. by rewrite !app_nil_r. Qed.

Lemma logging_grow r st : logging r st = grow st [] [r] [].
Proof. destruct st as [[? ?] ? ?]. unfold logging, grow. simpl. by rewrite !app_nil_r. Qed.

Lemma note_open_grow p st : note_open p st = grow st [] [] [p].
Proof. destruct st as [[? ?] ? ?]. unfold note_open, grow. simpl. by rewrite !app_nil_r. Qed.

(** The rows of a file add entries and log records to whatever state
    they start from, and every entry added was made from one of the rows. *)
Lemma load_rows_grow file columns rows how :
  ∃ new logged e,
    (∀ st, load_rows file columns rows how st = (grow st new logged [], e)) ∧
    Forall (λ x, ∃ row, row ∈ rows ∧ make_entry file columns row = Ok x) new.
Proof.
  induction rows as [|row rows (new & logged & e & IH & Hnew)]; simpl.
  { exists [], [], how. split; [|done]. intros st. by rewrite grow_nil. }
  assert (Forall (λ x, ∃ r, r ∈ row :: rows ∧ make_entry file columns r = Ok x)
            new) as Hnew'.
  { eapply Forall_impl; [exact Hnew|].
    intros y (r & Hr & Hy). exists r. split; [by right|done]. }
  destruct (make_entry file columns row) as [x|ex] eqn:Hrow.
  - exists (x :: new), logged, e. split.
    + intros st. by rewrite IH, append_grow, grow_grow.
    + constructor; [|done]. exists row. split; [left|done].
  - destruct (row_handler_catches ex).
    + exists new, (Error_row file ex :: logged), e. split; [|done].
      intros st. by rewrite IH, logging_grow, grow_grow.
    + exists [], [], (Some ex). split; [|done].
      intros st. by rewrite grow_nil.
Qed.

Lemma load_file_grow fs folder file :
  ∃ new logged e,
    (∀ st, folder_path (self st) = folder →
       load_file fs file st
       = (grow st new logged [OsPath.join folder file], e)) ∧
    Forall (made_for file) new.
Proof.
  unfold load_file.
  destruct (open_csv fs (OsPath.join folder file))
    as [[[|fieldnames body] how]|e] eqn:Hopen.
  - exists [], [], (Some (default TypeError how)). split; [|done].
    intros st <-. rewrite Hopen, note_open_grow. by destruct how.
  - destruct (missing_columns (resolve_columns fieldnames)) as [|m ms] eqn:Hm.
    + destruct (load_rows_grow file (resolve_columns fieldnames)
                  (dict_rows fieldnames body) how)
        as (new & logged & e & H & Hnew).
      exists new, logged, e. split.
      * intros st <-. rewrite Hopen, Hm, H, note_open_grow, grow_grow.
        by rewrite app_nil_r.
      * eapply Forall_impl; [exact Hnew|].
        intros x (row & _ & Hx). by exists (resolve_columns fieldnames), row.
    + exists [], [Warning_missing_columns file (m :: ms)], None.
      split; [|done].
      intros st <-. rewrite Hopen, Hm, note_open_grow, logging_grow, grow_grow.
      done.
  - exists [], [], (Some e). split; [|done].
    intros st <-. by rewrite Hopen, note_open_grow.
Qed.

Lemma try_file_grow fs folder file :
  ∃ new logged,
    (∀ st, folder_path (self st) = folder →
       try_file fs st file = grow st new logged [OsPath.join folder file]) ∧
    Forall (made_for file) new.
Proof.
  destruct (load_file_grow fs folder file) as (new & logged & e & H & Hnew).
  unfold try_file. destruct e as [e|].
  - exists new, (logged ++ [Error_file file e]). split; [|done].
    intros st Hst. rewrite (H st Hst), logging_grow, grow_grow.
    by rewrite !app_nil_r.
  - exists new, logged. split; [|done].
    intros st Hst. by rewrite (H st Hst).
Qed.

Lemma try_file_data fs st file :
  data (self (try_file fs st file))
  = data (self st) ++ file_entries fs (folder_path (self st)) file.
Proof.
  destruct (try_file_grow fs (folder_path (self st)) file) as (new & logged & H & _).
  unfold file_entries. rewrite (H st eq_refl), (H (start _) eq_refl). done.
Qed.

Lemma load_files_grow fs folder files :
  ∃ new logged,
    (∀ st, folder_path (self st) = folder →
       load_files fs files st
       = grow st new logged (OsPath.join folder <$> files)) ∧
    new = concat (file_entries fs folder <$> files) ∧
    Forall (λ x, ∃ file, file ∈ files ∧ made_for file x) new.
Proof.
  unfold load_files.
  induction files as [|file files IH] using rev_ind.
  { exists [], []. split_and!; [|done|done]. intros st _. by rewrite grow_nil. }
  destruct IH as (new & logged & H & Hnew & Hmade).
  destruct (try_file_grow fs folder file) as (new1 & logged1 & H1 & Hmade1).
  exists (new ++ new1), (logged ++ logged1). split_and!.
  - intros st Hst. rewrite fold_left_app. simpl.
    rewrite (H st Hst), H1; [|done].
    by rewrite grow_grow, fmap_app.
  - rewrite fmap_app, concat_app. simpl. rewrite app_nil_r, Hnew. f_equal.
    unfold file_entries. by rewrite (H1 (start folder) eq_refl).
  - apply Forall_app. split.
    + eapply Forall_impl; [exact Hmade|]. intros x (f & Hf & Hx).
      exists f. split; [|done]. apply elem_of_app. by left.
    + eapply Forall_impl; [exact Hmade1|]. intros x Hx.
      exists file. split; [|done]. apply elem_of_app. right. by left.
Qed.

(** What [load_prices] leaves when the directory can be listed. *)
Lemma load_prices_grow fs st listing :
  listdir fs (folder_path (self st)) = Ok listing →
  ∃ new logged,
    load_prices fs st
    = Ok (grow st new logged
            (OsPath.join (folder_path (self st)) <$> candidates listing)) ∧
    new = concat (file_entries fs (folder_path (self st))
                    <$> candidates listing) ∧
    Forall (λ x, ∃ file, file ∈ candidates listing ∧ made_for file x) new.
Proof.
  intros Hls. unfold load_prices. rewrite Hls. simpl.
  destruct (load_files_grow fs (folder_path (self st)) (candidates listing))
    as (new & logged & H & Hnew & Hmade).
  exists new, logged. by rewrite (H st eq_refl).
Qed.

Lemma load_prices_inv fs st st' :
  load_prices fs st = Ok st' →
  ∃ listing, listdir fs (folder_path (self st)) = Ok listing.
Proof.
  unfold load_prices.
  destruct (listdir fs (folder_path (self st))) as [listing|e]; [|done].
  by exists listing.
Qed.

(** Every entry [load_prices] appends was made from a row. *)
Lemma load_prices_new fs st st' :
  load_prices fs st = Ok st' →
  ∃ new, data (self st') = data (self st) ++ new ∧
    Forall (λ x, ∃ file, made_for file x) new.
Proof.
  intros H. destruct (load_prices_inv _ _ _ H) as (listing & Hls).
  destruct (load_prices_grow fs st listing Hls) as (new & logged & H' & _ & Hm).
  rewrite H' in H. injection H as <-. exists new. split; [done|].
  eapply Forall_impl; [exact Hm|]. intros x (f & _ & Hx). by exists f.
Qed.


Lemma concat_skip_empty (f : str → list entry) (file : str) (files : list str) :
  f file = [] →
  concat (f <$> files)
  = concat (f <$> List.filter (λ g, negb (str_eqb g file)) files).
Proof.
  intros Hf. induction files as [|g files IH]; [done|].
  cbn [List.filter]. rewrite fmap_cons. cbn [concat].
  unfold str_eqb at 1. case_bool_decide as Hg; cbn [negb].
  - subst g. by rewrite Hf.
  - rewrite fmap_cons. cbn [concat]. by rewrite IH.
Qed.

Lemma file_entries_made fs folder file :
  Forall (made_for file) (file_entries fs folder file).
Proof.
  destruct (try_file_grow fs folder file) as (new & logged & H & Hm).
  unfold file_entries. by rewrite (H (start folder) eq_refl).
Qed.

(** ** The claims *)

(** C2. Every entry [load_prices] stores has, as its [price_per_kg], the
    quotient of its own [price] by its own [weight]: the catalog after the
    call is the catalog before it followed by new entries, and for each
    new entry the stored [price_per_kg] is the binary64 quotient, rounded
    to nearest, of the stored [price] by the stored [weight], which is not
    zero. *)
Theorem C2_unit_price_is_quotient fs st st' :
  load_prices fs st = Ok st' →
  ∃ new, data (self st') = data (self st) ++ new ∧
    Forall (λ x, price_per_kg x = SFdiv prec emax (price x) (weight x) ∧
                 is_zero (weight x) = false) new.
Proof.
  intros H. destruct (load_prices_new _ _ _ H) as (new & Hd & Hm).
  exists new. split; [done|].
  eapply Forall_impl; [exact Hm|].
  intros x (f & columns & row & Hx).
  by apply make_entry_ok in Hx as (_ & ? & ?).
Qed.

(** C5, as amended. No entry with a zero weight is ever appended: every
    entry [load_prices] adds has a weight different from zero, its
    [price_per_kg] is the IEEE quotient of its price by that weight, and
    this quotient is not NaN when price and weight are finite. *)
Theorem C5_no_zero_weight_entry fs st st' :
  load_prices fs st = Ok st' →
  ∃ new, data (self st') = data (self st) ++ new ∧
    Forall (λ x, is_zero (weight x) = false ∧
                 price_per_kg x = SFdiv prec emax (price x) (weight x) ∧
                 (isfinite (price x) && isfinite (weight x) = true →
                  isnan (price_per_kg x) = false)) new.
Proof.
  intros H. destruct (load_prices_new _ _ _ H) as (new & Hd & Hm).
  exists new. split; [done|].
  eapply Forall_impl; [exact Hm|].
  intros x (f & columns & row & Hx).
  apply make_entry_ok in Hx as (_ & Hz & Hq). split; [done|].
  split; [done|]. intros [Hp Hw]%andb_true_iff. rewrite Hq.
  by apply SFdiv_finite_not_nan.
Qed.

(** C10. When the directory cannot be listed, [load_prices] raises the
    exception of [os.listdir] instead of returning. *)
Theorem C10_listdir_failure_propagates fs st e :
  listdir fs (folder_path (self st)) = Raise e →
  load_prices fs st = Raise e.
Proof. intros H. unfold load_prices. by rewrite H. Qed.

(** Once the directory is listed, [load_prices] returns: no failure of a
    file or of a row leaves the method. *)
Lemma load_prices_returns fs st listing :
  listdir fs (folder_path (self st)) = Ok listing →
  ∃ st', load_prices fs st = Ok st'.
Proof.
  intros H. destruct (load_prices_grow fs st listing H) as (? & ? & -> & _).
  eauto.
Qed.

Lemma candidates_spec (listing : list str) (f : str) :
  f ∈ candidates listing ↔
  f ∈ listing ∧ ∃ pre post, f = pre ++ lit "price" ++ post.
Proof.
  unfold candidates.
  by rewrite list_elem_of_In, filter_In, <- list_elem_of_In, contains_spec.
Qed.

(** C8. The files [load_prices] opens are the entries of the directory
    listing whose name contains [price], letter case included, in listing
    order, and no others: these are the names in which the five code
    points of [price] occur in a row, and [Price1.csv] is not among
    them. *)
Theorem C8_candidate_files fs st listing :
  listdir fs (folder_path (self st)) = Ok listing →
  ∃ st', load_prices fs st = Ok st' ∧
    opened st'
    = opened st
      ++ (OsPath.join (folder_path (self st))
            <$> List.filter (λ f, contains f (lit "price")) listing) ∧
    (∀ f, f ∈ List.filter (λ f, contains f (lit "price")) listing ↔
          f ∈ listing ∧ ∃ pre post, f = pre ++ lit "price" ++ post) ∧
    contains (lit "Price1.csv") (lit "price") = false.
Proof.
  intros H. destruct (load_prices_grow fs st listing H) as (? & ? & -> & _).
  eexists. split; [done|]. split; [done|].
  split; [apply candidates_spec|by vm_compute].
Qed.


(** ** Column resolution *)

Lemma dict_lookup_elem {V} (pairs : list (str * V)) (k : str) (v : V) :
  dict pairs !! k = Some v → (k, v) ∈ pairs.
Proof.
  unfold dict.
  assert (∀ m : gmap str V,
            fold_left (λ d kv, <[kv.1 := kv.2]> d) pairs m !! k = Some v →
            (k, v) ∈ pairs ∨ m !! k = Some v) as H.
  { induction pairs as [|[k' v'] pairs IH]; intros m Hm; simpl in *; [by right|].
    destruct (IH _ Hm) as [Hin | Hins]; [left; by right|].
    destruct (decide (k' = k)) as [->|Hne].
    - rewrite lookup_insert_eq in Hins. injection Hins as ->. left. by left.
    - rewrite lookup_insert_ne in Hins by done. by right. }
  intros Hk. destruct (H ∅ Hk) as [?|Hempty]; [done|].
  by rewrite lookup_empty in Hempty.
Qed.

(** Every canonical name in the synonym table is a non-empty string. *)
Lemma column_mapping_truthy (k mapped_col : str) :
  column_mapping !! k = Some mapped_col → truthy mapped_col = true.
Proof.
  intros H%dict_lookup_elem.
  change (truthy (k, mapped_col).2 = true). revert H.
  generalize (k, mapped_col). apply Forall_forall.
  repeat (constructor; [by vm_compute|]). constructor.
Qed.

Lemma add_column_lookup_same columns col c :
  column_mapping !! lower col = Some c →
  add_column columns col !! c = Some col.
Proof.
  intros H. unfold add_column. rewrite H.
  rewrite (column_mapping_truthy _ _ H). apply lookup_insert_eq.
Qed.

Lemma add_column_lookup_other columns col c :
  column_mapping !! lower col ≠ Some c →
  add_column columns col !! c = columns !! c.
Proof.
  intros H. unfold add_column.
  destruct (column_mapping !! lower col) as [mapped_col|]; [|done].
  destruct (truthy mapped_col); [|done].
  apply lookup_insert_ne. congruence.
Qed.

Lemma fold_add_column fieldnames columns c :
  fold_left add_column fieldnames columns !! c
  = match last (filter (λ col, column_mapping !! lower col = Some c)
                  fieldnames) with
    | Some col => Some col
    | None => columns !! c
    end.
Proof.
  revert columns.
  induction fieldnames as [|col l IH]; intros columns; simpl; [done|].
  rewrite IH, filter_cons. case_decide as Hc.
  - rewrite last_cons.
    destruct (last (filter _ l)); [done|].
    by apply add_column_lookup_same.
  - destruct (last (filter _ l)); [done|].
    by apply add_column_lookup_other.
Qed.

Lemma resolve_columns_lookup (fieldnames : list str) (c : str) :
  resolve_columns fieldnames !! c
  = last (filter (λ col, column_mapping !! lower col = Some c) fieldnames).
Proof.
  unfold resolve_columns. rewrite fold_add_column, lookup_empty.
  by destruct (last _).
Qed.

(** The table of the program holds the aliases of the interface, each
    written in plain small letters. *)
Lemma column_mapping_synonyms (k c : str) :
  column_mapping !! k = Some c ↔ (k, c) ∈ synonyms.
Proof.
  split; [apply dict_lookup_elem|]. intros H.
  repeat (apply elem_of_cons in H as [[= -> ->]|H]; [by vm_compute|]).
  by apply elem_of_nil in H.
Qed.

Lemma synonyms_plain (k c : str) :
  (k, c) ∈ synonyms → Forall (λ d, plain_letter d = true) k.
Proof.
  assert (Forall (λ kc : str * str, Forall (λ d, plain_letter d = true) kc.1)
            synonyms) as H.
  { apply (bool_decide_unpack _). by vm_compute. }
  rewrite Forall_forall in H. apply H.
Qed.

(** The headers the table maps to a field once lower-cased are the
    aliases of the field in any mix of letter cases. *)
Lemma alias_of_lookup (c h : str) :
  column_mapping !! lower h = Some c ↔ alias_of c h.
Proof.
  rewrite column_mapping_synonyms. unfold alias_of. split.
  - intros Hk. exists (lower h). split; [done|].
    by apply (lower_spells h (lower h) (synonyms_plain _ c Hk)).
  - intros (k & Hk & Hs).
    by apply (lower_spells h k (synonyms_plain _ c Hk)) in Hs as ->.
Qed.

Lemma last_filter_Some {A} (P : A → Prop) `{!∀ x, Decision (P x)}
    (l : list A) (x : A) :
  last (filter P l) = Some x ↔
  ∃ l1 l2, l = l1 ++ x :: l2 ∧ P x ∧ Forall (λ y, ¬ P y) l2.
Proof.
  induction l as [|y l IH] using rev_ind.
  { split; [done|]. by intros ([|??] & ? & ? & _). }
  rewrite filter_app, filter_cons, filter_nil.
  destruct (decide (P y)) as [Hy|Hy].
  - rewrite last_snoc. split.
    + intros [= ->]. by exists l, [].
    + intros (l1 & l2 & Hl & Hx & Hl2).
      destruct l2 as [|z l2 _] using rev_ind.
      * by apply app_inj_tail in Hl as [_ ->].
      * rewrite app_comm_cons, app_assoc in Hl.
        apply app_inj_tail in Hl as [_ ->].
        by apply Forall_app in Hl2 as [_ [? _]%Forall_cons].
  - rewrite app_nil_r, IH. split.
    + intros (l1 & l2 & -> & Hx & Hl2). exists l1, (l2 ++ [y]).
      split; [by rewrite <- app_assoc|]. split; [done|].
      apply Forall_app. split; [done|by constructor].
    + intros (l1 & l2 & Hl & Hx & Hl2).
      destruct l2 as [|z l2 _] using rev_ind.
      * by apply app_inj_tail in Hl as [_ ->].
      * rewrite app_comm_cons, app_assoc in Hl.
        apply app_inj_tail in Hl as [-> ->]. exists l1, l2.
        split; [done|]. split; [done|]. by apply Forall_app in Hl2 as [? _].
Qed.

(** C7. The column mapping of a header list holds, for a canonical
    field, the last header of the list that is an alias of the field,
    whatever the letter case of its letters (a header is an alias when
    each of its code points is the code point of the alias at the same
    place or the capital 32 below it), and nothing when the list has no
    such header; a header that is no alias of any field can be taken out
    of the list without changing the mapping. *)
Theorem C7_resolve_columns_last_match (fieldnames : list str) (c : str) :
  (∀ h, resolve_columns fieldnames !! c = Some h ↔
        ∃ before after,
          fieldnames = before ++ h :: after ∧ alias_of c h ∧
          Forall (λ h', ¬ alias_of c h') after) ∧
  (resolve_columns fieldnames !! c = None ↔
   Forall (λ h, ¬ alias_of c h) fieldnames) ∧
  (∀ before h after,
     fieldnames = before ++ h :: after → (∀ c', ¬ alias_of c' h) →
     resolve_columns fieldnames = resolve_columns (before ++ after)).
Proof.
  split_and!.
  - intros h. rewrite resolve_columns_lookup, last_filter_Some.
    split; intros (l1 & l2 & Hl & Hh & Hl2); exists l1, l2;
      (split; [done|]); (split; [by apply alias_of_lookup|]);
      eapply Forall_impl; try exact Hl2; intros h' Hh' ?;
      by apply Hh', alias_of_lookup.
  - rewrite resolve_columns_lookup, last_None. split.
    + intros Hnil. apply Forall_forall. intros h Hin Hh.
      assert (h ∈ filter (λ col, column_mapping !! lower col = Some c)
                    fieldnames) as Hf
        by by apply list_elem_of_filter, conj; [apply alias_of_lookup|].
      rewrite Hnil in Hf. by apply elem_of_nil in Hf.
    + intros Hall. apply elem_of_nil_inv.
      intros h [Hmap Hin]%list_elem_of_filter.
      rewrite Forall_forall in Hall. by apply (Hall h Hin), alias_of_lookup.
  - intros before h after -> Hh. unfold resolve_columns.
    rewrite !fold_left_app. cbn [fold_left].
    assert (∀ columns, add_column columns h = columns) as ->; [|done].
    intros columns. unfold add_column.
    destruct (column_mapping !! lower h) as [c'|] eqn:Hc'; [|done].
    by apply alias_of_lookup, Hh in Hc'.
Qed.

(** ** [find_text] *)

(** C9. [find_text] leaves [self] as it was, so the catalog is the same
    after the call, and asking again gives the same list. *)
Theorem C9_find_text_read_only (self : PriceAnalyzer) (query : str) :
  (find_text self query).2 = self ∧
  data (find_text self query).2 = data self ∧
  (find_text (find_text self query).2 query).1 = (find_text self query).1.
Proof. done. Qed.

Lemma find_text_perm (self : PriceAnalyzer) (query : str) :
  (find_text self query).1 ≡ₚ List.filter (matches query) (data self).
Proof. apply sorted_perm. Qed.

(** The query enters [find_text] through its lower-cased form only. *)
Lemma find_text_lower (self : PriceAnalyzer) (q1 q2 : str) :
  lower q1 = lower q2 → find_text self q1 = find_text self q2.
Proof.
  intros H. unfold find_text. f_equal. f_equal.
  apply filter_ext. intros x. unfold matches. by rewrite H.
Qed.

(** C3, as amended. The list [find_text] returns is a rearrangement of
    the catalog entries whose lower-cased name contains the lower-cased
    query, that is, has it as a run of consecutive code points, where
    lower-casing is that of [str.lower].  Letter case plays no part for
    the letters a to z and а to я: an entry is returned as soon as its
    name contains the word of the query, each letter in either case
    (the capital of a small letter stands 32 code points below it); so
    the queries [МОЛОК] and [молок] give the same list. *)
Theorem C3_find_text_matches (self : PriceAnalyzer) (query : str) :
  (find_text self query).1
  ≡ₚ List.filter (λ x, contains (lower (name x)) (lower query)) (data self) ∧
  (∀ x, x ∈ (find_text self query).1 ↔
        x ∈ data self ∧
        ∃ pre post, lower (name x) = pre ++ lower query ++ post) ∧
  (∀ x word pre w post,
     x ∈ data self → Forall (λ d, small_letter d = true) word →
     spells query word → name x = pre ++ w ++ post → spells w word →
     x ∈ (find_text self query).1) ∧
  lower (lit "МОЛОК") = lit "молок" ∧
  (find_text self (lit "МОЛОК")).1 = (find_text self (lit "молок")).1.
Proof.
  assert (∀ x, x ∈ (find_text self query).1 ↔
             x ∈ data self ∧
             ∃ pre post, lower (name x) = pre ++ lower query ++ post) as Hin.
  { intros x. rewrite find_text_perm.
    rewrite list_elem_of_In, filter_In, <- list_elem_of_In.
    unfold matches. by rewrite contains_spec. }
  split; [apply find_text_perm|]. split_and!; [done| | |].
  - intros x word pre w post Hx Hword Hq Hname Hw. apply Hin.
    split; [done|]. rewrite Hname. unfold lower.
    destruct (lower_from_prefix [] pre (w ++ post)) as (out & ->).
    rewrite (lower_from_spelled _ w word post Hword Hw).
    pose proof (lower_from_spelled [] query word [] Hword Hq) as Hlq.
    rewrite !app_nil_r in Hlq. rewrite Hlq. eauto.
  - by vm_compute.
  - apply (f_equal fst), find_text_lower. by vm_compute.
Qed.

(** C3 as stated fails: lower-casing is not case folding.  After loading
    a price list with the names [STRASSE] and [ΑΣ], the query [straße]
    returns nothing although it folds to [strasse], as the first name
    does; and the query [Σ] returns nothing although the second name
    contains this very letter ([str.lower] writes the sigma that ends a
    word as [ς] and any other as [σ]), and the foldings agree again. *)
Lemma C3_counterexample :
  ∃ st' x y,
    load_prices Samples.fs_fold (start Demo.folder) = Ok st' ∧
    data (self st') = [x; y] ∧
    name x = lit "STRASSE" ∧
    casefold (lit "straße") = casefold (name x) ∧
    (find_text (self st') (lit "straße")).1 = [] ∧
    name y = lit "ΑΣ" ∧
    contains (name y) (lit "Σ") = true ∧
    contains (casefold (name y)) (casefold (lit "Σ")) = true ∧
    (find_text (self st') (lit "Σ")).1 = [].
Proof.
  eexists _, _, _. split; [by vm_compute|]. split; [by vm_compute|].
  split_and!; by vm_compute.
Qed.



(** C5 as stated fails: a price cell [inf] gives a stored entry whose
    [price_per_kg] is infinite, and a price cell [nan] one whose
    [price_per_kg] is NaN, both with a weight that is not zero. *)
Lemma C5_counterexample :
  (∃ st' x, load_prices Demo.fs_inf (start Demo.folder) = Ok st' ∧
     data (self st') = [x] ∧ is_zero (weight x) = false ∧
     isinf (price_per_kg x) = true) ∧
  (∃ st' x, load_prices Demo.fs_nan (start Demo.folder) = Ok st' ∧
     x ∈ data (self st') ∧ is_zero (weight x) = false ∧
     isnan (price_per_kg x) = true).
Proof.
  split.
  - eexists _, _. split; [by vm_compute|]. by vm_compute.
  - eexists _, _. split; [by vm_compute|].
    split; [simpl; right; left|]. by vm_compute.
Qed.

(** C1 fails on the code. A row of weight zero raises
    [ZeroDivisionError], a row one cell short raises [AttributeError];
    the handler of the row catches neither, the handler of the file
    does, and the rest of the file is not read: the well-formed row that
    follows is not in the catalog. *)
Theorem C1_uncaught_row_error_ends_file :
  (∃ st' x,
     load_prices Demo.fs_zero_weight (start Demo.folder) = Ok st' ∧
     make_entry (lit "price.csv") (resolve_columns Demo.header)
       (row_dict Demo.header [lit "B"; lit "20"; lit "2"]) = Ok x ∧
     data (self st') = [] ∧
     log st' = [Error_file (lit "price.csv") ZeroDivisionError]) ∧
  (∃ st' x,
     load_prices Demo.fs_short_row (start Demo.folder) = Ok st' ∧
     make_entry (lit "price.csv") (resolve_columns Demo.header)
       (row_dict Demo.header [lit "B"; lit "20"; lit "2"]) = Ok x ∧
     data (self st') = [] ∧
     log st' = [Error_file (lit "price.csv") AttributeError]).
Proof.
  split; eexists _, _; (split; [by vm_compute|]); split; by vm_compute.
Qed.

(** Where C1 holds: as long as every failing row fails with an exception
    the handler of the row names and the file can be read to its end, the
    rows that fail are passed over one by one and the file gives the
    entries of its other rows, in order. *)
Lemma load_rows_all_caught file columns rows st :
  Forall (λ row, match make_entry file columns row with
                 | Ok _ => True
                 | Raise e => row_handler_catches e = true
                 end) rows →
  (load_rows file columns rows None st).2 = None ∧
  data (self (load_rows file columns rows None st).1)
  = data (self st)
    ++ omap (λ row, match make_entry file columns row with
                    | Ok x => Some x
                    | Raise _ => None
                    end) rows.
Proof.
  intros Hall. revert st.
  induction Hall as [|row rows Hrow _ IH]; intros st; simpl.
  { by rewrite app_nil_r. }
  destruct (make_entry file columns row) as [x|e].
  - destruct (IH (append x st)) as [-> ->]. simpl.
    by rewrite <- app_assoc.
  - rewrite Hrow. by destruct (IH (logging (Error_row file e) st)) as [-> ->].
Qed.

(** ** The statements at sample inputs *)

Lemma C2_witness :
  load_prices Demo.fs_shop (start Demo.folder) = Ok (Demo.loaded Demo.fs_shop) ∧
  ∃ new,
    data (self (Demo.loaded Demo.fs_shop))
    = data (self (start Demo.folder)) ++ new ∧
    Forall (λ x, price_per_kg x = SFdiv prec emax (price x) (weight x) ∧
                 is_zero (weight x) = false) new.
Proof.
  split; [by vm_compute|].
  apply (C2_unit_price_is_quotient Demo.fs_shop (start Demo.folder)).
  by vm_compute.
Defined.

Lemma C5_witness :
  load_prices Demo.fs_shop (start Demo.folder) = Ok (Demo.loaded Demo.fs_shop) ∧
  ∃ new,
    data (self (Demo.loaded Demo.fs_shop))
    = data (self (start Demo.folder)) ++ new ∧
    Forall (λ x, is_zero (weight x) = false ∧
                 price_per_kg x = SFdiv prec emax (price x) (weight x) ∧
                 (isfinite (price x) && isfinite (weight x) = true →
                  isnan (price_per_kg x) = false)) new.
Proof.
  split; [by vm_compute|].
  apply (C5_no_zero_weight_entry Demo.fs_shop (start Demo.folder)).
  by vm_compute.
Defined.

Lemma C10_witness :
  listdir Demo.fs_shop (folder_path (self (start Demo.elsewhere)))
  = Raise OSError ∧
  load_prices Demo.fs_shop (start Demo.elsewhere) = Raise OSError.
Proof.
  split; [by vm_compute|].
  apply (C10_listdir_failure_propagates Demo.fs_shop (start Demo.elsewhere)).
  by vm_compute.
Defined.

Lemma C8_witness :
  ∃ st', load_prices Demo.fs_shop (start Demo.folder) = Ok st' ∧
    opened st'
    = opened (start Demo.folder)
      ++ (OsPath.join (folder_path (self (start Demo.folder)))
            <$> List.filter (λ f, contains f (lit "price"))
                  [lit "price_1.csv"; lit "Price1.csv"; lit "price_2.csv";
                   lit "notes.txt"]) ∧
    (∀ f, f ∈ List.filter (λ f, contains f (lit "price"))
                [lit "price_1.csv"; lit "Price1.csv"; lit "price_2.csv";
                 lit "notes.txt"] ↔
          f ∈ [lit "price_1.csv"; lit "Price1.csv"; lit "price_2.csv";
               lit "notes.txt"] ∧
          ∃ pre post, f = pre ++ lit "price" ++ post) ∧
    contains (lit "Price1.csv") (lit "price") = false.
Proof.
  apply (C8_candidate_files Demo.fs_shop (start Demo.folder)).
  by vm_compute.
Defined.



(** ** The examples of the specification *)

Example shop_catalog :
  data (self (Demo.loaded Demo.fs_shop))
  = [Demo.milk; Demo.milk_base; Demo.butter].
Proof. by vm_compute. Qed.

Example shop_log :
  log (Demo.loaded Demo.fs_shop)
  = [ Error_row (lit "price_1.csv") ValueError;
      Warning_missing_columns (lit "price_2.csv") [lit "weight"] ].
Proof. by vm_compute. Qed.

Example resolve_all_three :
  missing_columns (resolve_columns Demo.header) = [] ∧
  resolve_columns Demo.header !! lit "name" = Some (lit "Название") ∧
  resolve_columns Demo.header !! lit "price" = Some (lit "Цена") ∧
  resolve_columns Demo.header !! lit "weight" = Some (lit "Фасовка").
Proof. by vm_compute. Qed.

Example resolve_without_weight :
  missing_columns (resolve_columns [lit "Название"; lit "Цена"])
  = [lit "weight"].
Proof. by vm_compute. Qed.

Example resolve_later_header_wins :
  resolve_columns [lit "ЦЕНА"; lit "Вес"; lit "товар"; lit "id"; lit "Розница"]
  !! lit "price" = Some (lit "Розница").
Proof. by vm_compute. Qed.

Example butter_row :
  make_entry (lit "price_1.csv") (resolve_columns Demo.header)
    (row_dict Demo.header [lit "Масло"; lit "200"; lit "0.5"])
  = Ok Demo.butter.
Proof. by vm_compute. Qed.

Example cheese_row :
  make_entry (lit "price_1.csv") (resolve_columns Demo.header)
    (row_dict Demo.header [lit "Сыр"; lit "abc"; lit "1"])
  = Raise ValueError.
Proof. by vm_compute. Qed.

Example find_milk :
  let self := {| folder_path := Demo.folder;
                 data := [Demo.milk; Demo.milk_base] |} in
  (find_text self (lit "моло")).1 = [Demo.milk_base; Demo.milk] ∧
  (find_text self (lit "МОЛО")).1 = [Demo.milk_base; Demo.milk] ∧
  (find_text self []).1 = [Demo.milk_base; Demo.milk] ∧
  (find_text self (lit "молок")).1 = [Demo.milk] ∧
  (find_text self (lit "сыр")).1 = [].
Proof. by vm_compute. Qed.

(* ================================================================= *)
(** * Further properties *)

Import Fmt Html Shell Notions.

(** ** The loader, file by file *)

(** X1. When the directory can be listed, [load_prices] returns; the
    catalog it leaves is the catalog it found followed by the entries of
    each candidate file, file after file in listing order, and what a
    file adds does not depend on the catalog or the log. The folder
    is kept, and the log found is a prefix of the log left. *)
Theorem X1_load_prices_appends_file_by_file fs st listing :
  listdir fs (folder_path (self st)) = Ok listing →
  ∃ st', load_prices fs st = Ok st' ∧
    folder_path (self st') = folder_path (self st) ∧
    data (self st')
    = data (self st)
      ++ concat (file_entries fs (folder_path (self st))
                   <$> candidates listing) ∧
    log st `prefix_of` log st'.
Proof.
  intros H.
  destruct (load_prices_grow fs st listing H) as (new & logged & -> & -> & _).
  eexists. split; [done|]. split; [done|]. split; [done|].
  by exists logged.
Qed.

(** X2. [load_prices] does not look at what the catalog holds: a second
    call on the same directory appends the same entries once more. *)
Theorem X2_load_prices_twice_appends_twice fs st st1 st2 :
  load_prices fs st = Ok st1 →
  load_prices fs st1 = Ok st2 →
  ∃ new, data (self st1) = data (self st) ++ new ∧
         data (self st2) = data (self st) ++ new ++ new.
Proof.
  intros H1 H2.
  destruct (load_prices_inv _ _ _ H1) as (listing & Hls).
  destruct (load_prices_grow fs st listing Hls) as (new & logged & H1' & Hnew & _).
  rewrite H1' in H1. injection H1 as <-.
  assert (listdir fs (folder_path (self (grow st new logged
            (OsPath.join (folder_path (self st)) <$> candidates listing))))
          = Ok listing) as Hls' by done.
  destruct (load_prices_grow fs _ listing Hls')
    as (new' & logged' & H2' & Hnew' & _).
  rewrite H2' in H2. injection H2 as <-.
  exists new. split; [done|]. simpl in *. rewrite <- app_assoc.
  by rewrite Hnew', <- Hnew.
Qed.

(** A file that only leaves one record in the log, whatever the state. *)
Lemma skipped_file fs st listing file r :
  listdir fs (folder_path (self st)) = Ok listing →
  file ∈ candidates listing →
  (∀ st', folder_path (self st') = folder_path (self st) →
     try_file fs st' file
     = grow st' [] [r] [OsPath.join (folder_path (self st)) file]) →
  ∃ st' new, load_prices fs st = Ok st' ∧
    data (self st') = data (self st) ++ new ∧
    Forall (λ x, PA.file x ≠ file) new ∧
    data (self st')
    = data (self (load_files fs
                    (List.filter (λ f, negb (str_eqb f file))
                       (candidates listing)) st)) ∧
    r ∈ log st'.
Proof.
  intros Hls Hin Hskip.
  set (folder := folder_path (self st)) in *.
  assert (file_entries fs folder file = []) as Hnone.
  { unfold file_entries. by rewrite (Hskip (start folder) eq_refl). }
  destruct (load_prices_grow fs st listing Hls)
    as (new & logged & Hload & Hnew & _).
  eexists _, new. split; [exact Hload|]. split; [done|]. split_and!.
  - rewrite Hnew. apply Forall_concat, Forall_fmap, Forall_forall.
    intros f _. simpl. unfold compose.
    destruct (decide (f = file)) as [->|Hne].
    + fold folder. by rewrite Hnone.
    + eapply Forall_impl; [apply file_entries_made|].
      intros x (columns & row & Hx).
      apply make_entry_ok in Hx as (-> & _). done.
  - destruct (load_files_grow fs folder
                (List.filter (λ f, negb (str_eqb f file)) (candidates listing)))
      as (new' & logged' & H' & Hnew' & _).
    rewrite (H' st eq_refl). simpl. f_equal.
    rewrite Hnew, Hnew'. fold folder. by apply concat_skip_empty.
  - apply list_elem_of_split in Hin as (l1 & l2 & Hsplit).
    subst folder. unfold load_prices in Hload.
    rewrite Hls in Hload. simpl in Hload.
    injection Hload as Hload. rewrite <- Hload, Hsplit.
    unfold load_files. rewrite fold_left_app. simpl.
    destruct (load_files_grow fs (folder_path (self st)) l1)
      as (n1 & g1 & H1 & _).
    destruct (load_files_grow fs (folder_path (self st)) l2)
      as (n2 & g2 & H2 & _).
    unfold load_files in H1, H2.
    rewrite (H1 st eq_refl), Hskip by done.
    rewrite H2; [|done]. simpl.
    rewrite !elem_of_app. left. right. left.
Qed.

(** X3. A candidate file that cannot be opened adds no entry: the
    catalog is the one the other candidate files give, and the log holds
    an error for the file with the exception of [open]. *)
Theorem X3_unopenable_file_is_skipped fs st listing file e :
  listdir fs (folder_path (self st)) = Ok listing →
  file ∈ candidates listing →
  open_csv fs (OsPath.join (folder_path (self st)) file) = Raise e →
  ∃ st' new, load_prices fs st = Ok st' ∧
    data (self st') = data (self st) ++ new ∧
    Forall (λ x, PA.file x ≠ file) new ∧
    data (self st')
    = data (self (load_files fs
                    (List.filter (λ f, negb (str_eqb f file))
                       (candidates listing)) st)) ∧
    Error_file file e ∈ log st'.
Proof.
  intros Hls Hin Hopen. apply skipped_file; [done|done|].
  intros st' Hst'. unfold try_file, load_file. rewrite Hst', Hopen.
  by rewrite logging_grow, note_open_grow, grow_grow.
Qed.

(** X4. A candidate file without any record, not even a header, adds no
    entry either; what the log holds for it is the [TypeError] of the
    loop over [reader.fieldnames], which is [None]. *)
Theorem X4_empty_file_is_skipped fs st listing file :
  listdir fs (folder_path (self st)) = Ok listing →
  file ∈ candidates listing →
  open_csv fs (OsPath.join (folder_path (self st)) file) = Ok ([], None) →
  ∃ st' new, load_prices fs st = Ok st' ∧
    data (self st') = data (self st) ++ new ∧
    Forall (λ x, PA.file x ≠ file) new ∧
    data (self st')
    = data (self (load_files fs
                    (List.filter (λ f, negb (str_eqb f file))
                       (candidates listing)) st)) ∧
    Error_file file TypeError ∈ log st'.
Proof.
  intros Hls Hin Hopen. apply skipped_file; [done|done|].
  intros st' Hst'. unfold try_file, load_file. rewrite Hst', Hopen.
  by rewrite logging_grow, note_open_grow, grow_grow.
Qed.

(** ** The loader, row by row *)

(** X5. The rows the reader yields that give an entry or fail with
    [KeyError], [ValueError] or [TypeError] are all gone through: the
    entries of the good ones are appended in row order and one error is
    logged per failing row, in row order.  The loop is then left the way
    the reader ends: normally at the end of the file, or with the
    exception of the reader when a further record cannot be read, the
    entries of the rows read before staying in the catalog. *)
Theorem X5_caught_rows_are_skipped_and_logged file columns rows how st :
  Forall (row_passes file columns) rows →
  load_rows file columns rows how st
  = (grow st (omap (row_entry file columns) rows)
       (omap (row_error file columns) rows) [], how).
Proof.
  intros Hall. revert st.
  induction Hall as [|row rows Hrow _ IH]; intros st; simpl.
  { by rewrite grow_nil. }
  unfold row_passes, row_entry, row_error in *.
  destruct (make_entry file columns row) as [x|e]; simpl.
  - by rewrite IH, append_grow, grow_grow.
  - assert (row_handler_catches e = true) as ->
      by by destruct Hrow as [->|[->| ->]].
    by rewrite IH, logging_grow, grow_grow.
Qed.

(** X6. The first row that fails with an exception the handler of the
    row does not name ends the loop: the rows before it have been dealt
    with, the rows after it are never looked at, and the exception is
    handed on. *)
Theorem X6_uncaught_row_error_ends_loop file columns before row after e how
    st :
  Forall (row_passes file columns) before →
  make_entry file columns row = Raise e →
  row_handler_catches e = false →
  load_rows file columns (before ++ row :: after) how st
  = (grow st (omap (row_entry file columns) before)
       (omap (row_error file columns) before) [], Some e).
Proof.
  intros Hall Hrow He. revert st.
  induction Hall as [|r rows Hr _ IH]; intros st; simpl.
  { by rewrite Hrow, He, grow_nil. }
  unfold row_passes, row_entry, row_error in *.
  destruct (make_entry file columns r) as [x|e']; simpl.
  - by rewrite IH, append_grow, grow_grow.
  - assert (row_handler_catches e' = true) as ->
      by by destruct Hr as [->|[->| ->]].
    by rewrite IH, logging_grow, grow_grow.
Qed.

(** [strip] leaves no whitespace at either end. *)
Lemma lstrip_head (s : str) (c : N) :
  head (lstrip s) = Some c → isspace c = false.
Proof.
  induction s as [|a s IH]; simpl; [done|].
  destruct (isspace a) eqn:Ha; [done|]. simpl. by intros [= <-].
Qed.

Lemma lstrip_suffix (s : str) : ∃ pre, s = pre ++ lstrip s.
Proof.
  induction s as [|a s (pre & IH)]; simpl; [by exists []|].
  destruct (isspace a); [|by exists []].
  exists (a :: pre). simpl. by f_equal.
Qed.

Lemma strip_last (s : str) (c : N) :
  last (strip s) = Some c → isspace c = false.
Proof.
  unfold strip. rewrite rev_alt.
  change (rev_append ?l []) with (reverse l).
  rewrite last_reverse. apply lstrip_head.
Qed.

Lemma strip_head (s : str) (c : N) :
  head (strip s) = Some c → isspace c = false.
Proof.
  unfold strip. intros H.
  destruct (lstrip_suffix (rev (lstrip s))) as (pre & Hpre).
  apply (f_equal (@rev N)) in Hpre.
  rewrite rev_involutive, rev_app_distr in Hpre.
  destruct (rev (lstrip (rev (lstrip s)))) as [|a t] eqn:Hr; [done|].
  simpl in H. injection H as ->.
  apply (lstrip_head s). by rewrite Hpre.
Qed.

Lemma make_entry_name file columns row x :
  make_entry file columns row = Ok x → ∃ s, name x = strip s.
Proof.
  unfold make_entry. intros H.
  repeat match type of H with
  | mbind _ ?r = Ok _ => destruct r eqn:?; simpl in H; [|discriminate]
  end.
  injection H as <-. simpl.
  match goal with H : cell_strip ?c = Ok ?n |- ∃ s, ?n = _ =>
    destruct c as [s|]; [|discriminate]; injection H as <-; by exists s end.
Qed.

(** X7. Every entry [load_prices] appends carries the name of a
    candidate file of the listing, and its name has no whitespace at
    either end. *)
Theorem X7_entries_name_their_file fs st st' :
  load_prices fs st = Ok st' →
  ∃ listing new,
    listdir fs (folder_path (self st)) = Ok listing ∧
    data (self st') = data (self st) ++ new ∧
    Forall (λ x, PA.file x ∈ candidates listing ∧
                 (∀ c, head (name x) = Some c → isspace c = false) ∧
                 (∀ c, last (name x) = Some c → isspace c = false)) new.
Proof.
  intros H. destruct (load_prices_inv _ _ _ H) as (listing & Hls).
  destruct (load_prices_grow fs st listing Hls) as (new & logged & H' & _ & Hm).
  rewrite H' in H. injection H as <-. exists listing, new.
  split; [done|]. split; [done|].
  eapply Forall_impl; [exact Hm|].
  intros x (f & Hf & columns & row & Hx).
  destruct (make_entry_name _ _ _ _ Hx) as (s & ->).
  apply make_entry_ok in Hx as (-> & _).
  split; [done|]. split; intros c; [apply strip_head|apply strip_last].
Qed.

(** ** Headers and cells *)

(** The canonical names of the synonym table are the required ones. *)
Lemma column_mapping_required (k c : str) :
  column_mapping !! k = Some c → c ∈ required_columns.
Proof.
  intros H%dict_lookup_elem.
  change (((k, c).2) ∈ required_columns). revert H.
  generalize (k, c). apply Forall_forall.
  repeat (constructor; [apply (bool_decide_unpack _); by vm_compute|]).
  constructor.
Qed.

(** X8. The fields reported as missing for a header list are the
    required fields, in the order name, price, weight, for which no
    header of the list is a synonym in any letter case. *)
Theorem X8_missing_columns_are_unmatched_fields (fieldnames : list str)
    (c : str) :
  c ∈ missing_columns (resolve_columns fieldnames) ↔
  c ∈ required_columns ∧
  ∀ h, h ∈ fieldnames → column_mapping !! lower h ≠ Some c.
Proof.
  unfold missing_columns.
  rewrite list_elem_of_In, filter_In, <- list_elem_of_In.
  rewrite bool_decide_eq_true, resolve_columns_lookup, last_None.
  split; intros [Hc H]; (split; [done|]).
  - intros h Hh Hmap.
    assert (h ∈ filter (λ col, column_mapping !! lower col = Some c)
                  fieldnames) as Hin by by apply list_elem_of_filter.
    rewrite H in Hin. by apply elem_of_nil in Hin.
  - apply elem_of_nil_inv. intros h [Hmap Hh]%list_elem_of_filter.
    by apply (H h).
Qed.

(** X9. A header the mapping holds for a field is a header of the file
    that the synonym table sends to this field, and the field is one of
    name, price and weight. *)
Theorem X9_resolved_header_is_a_synonym (fieldnames : list str) (c h : str) :
  resolve_columns fieldnames !! c = Some h →
  h ∈ fieldnames ∧ column_mapping !! lower h = Some c ∧
  c ∈ required_columns.
Proof.
  rewrite resolve_columns_lookup. intros H%last_Some_elem_of.
  apply list_elem_of_filter in H as [Hmap Hin].
  split; [done|]. split; [done|]. by apply column_mapping_required in Hmap.
Qed.

(** X10. Making an entry reads the row at the three mapped headers only:
    two rows that agree there give the same result, entry or
    exception. *)
Theorem X10_make_entry_reads_mapped_cells (file : str)
    (columns : gmap str str) (row1 row2 : gmap str cell) :
  (∀ c h, c ∈ required_columns → columns !! c = Some h →
          row1 !! h = row2 !! h) →
  make_entry file columns row1 = make_entry file columns row2.
Proof.
  intros H. unfold make_entry.
  assert (∀ c, c ∈ required_columns →
            (h ← getitem columns c; getitem row1 h)
            = (h ← getitem columns c; getitem row2 h)) as Hget.
  { intros c Hc. unfold getitem.
    destruct (columns !! c) as [h|] eqn:Hh; simpl; [|done].
    by rewrite (H c h Hc Hh). }
  assert (lit "name" ∈ required_columns) as Hn by (left).
  assert (lit "price" ∈ required_columns) as Hp by (right; left).
  assert (lit "weight" ∈ required_columns) as Hw by (right; right; left).
  pose proof (Hget _ Hn) as Hgn. pose proof (Hget _ Hp) as Hgp.
  pose proof (Hget _ Hw) as Hgw. clear Hget H.
  unfold getitem in *.
  destruct (columns !! lit "name") as [hn|]; [|done]. simpl in *.
  destruct (row1 !! hn), (row2 !! hn); try done. injection Hgn as ->.
  simpl. destruct (cell_strip _); [|done]. simpl.
  destruct (columns !! lit "price") as [hp|]; [|done]. simpl in *.
  destruct (row1 !! hp), (row2 !! hp); try done. injection Hgp as ->.
  simpl. destruct (cell_strip _); [|done]. simpl.
  destruct (float_of_str _); [|done]. simpl.
  destruct (columns !! lit "weight") as [hw|]; [|done]. simpl in *.
  destruct (row1 !! hw), (row2 !! hw); try done. injection Hgw as ->.
  done.
Qed.

(** A row dictionary, key by key. *)
Lemma fill_none_lookup (keys : list str) (d : gmap str cell) (k : str) :
  fold_left (λ d key, <[key := PyNone]> d) keys d !! k
  = if decide (k ∈ keys) then Some PyNone else d !! k.
Proof.
  revert d. induction keys as [|key keys IH]; intros d.
  { destruct (decide (k ∈ [])) as [H%elem_of_nil|]; done. }
  cbn [fold_left]. rewrite IH.
  destruct (decide (k ∈ keys)) as [Hin|Hnin],
           (decide (k ∈ key :: keys)) as [Hin'|Hnin']; try done.
  - exfalso. apply Hnin'. by right.
  - apply elem_of_cons in Hin' as [->|?]; [|done]. apply lookup_insert_eq.
  - apply lookup_insert_ne. intros ->. apply Hnin'. left.
Qed.

Lemma fill_pairs_lookup_other {V} (pairs : list (str * V)) (d : gmap str V)
    (k : str) :
  k ∉ pairs.*1 →
  fold_left (λ d kv, <[kv.1 := kv.2]> d) pairs d !! k = d !! k.
Proof.
  revert d. induction pairs as [|[k' v] pairs IH]; intros d Hk; simpl; [done|].
  rewrite fmap_cons in Hk. apply not_elem_of_cons in Hk as [Hne Hk].
  rewrite IH by done. by apply lookup_insert_ne.
Qed.

Lemma zip_cells_lookup (fieldnames row : list str) (d : gmap str cell)
    (i : nat) (h v : str) :
  NoDup fieldnames → fieldnames !! i = Some h → row !! i = Some v →
  fold_left (λ d kv, <[kv.1 := kv.2]> d) (zip fieldnames (Str <$> row)) d !! h
  = Some (Str v).
Proof.
  revert row d i. induction fieldnames as [|f fn IH]; intros row d i Hnd Hi Hv.
  { done. }
  apply NoDup_cons in Hnd as [Hf Hnd].
  destruct row as [|v0 row]; [done|].
  destruct i as [|i]; simpl in *.
  - injection Hi as ->. injection Hv as ->.
    rewrite fill_pairs_lookup_other; [apply lookup_insert_eq|].
    intros Hin. apply Hf.
    apply list_elem_of_fmap in Hin as ([k v'] & -> & Hin).
    by apply elem_of_zip_l in Hin.
  - by apply (IH row _ i).
Qed.

Lemma row_dict_lookup (fieldnames row : list str) (i : nat) (h : str) :
  NoDup fieldnames → fieldnames !! i = Some h →
  row_dict fieldnames row !! h = Some (cell_at row i).
Proof.
  intros Hnd Hi. unfold row_dict, dict, cell_at. rewrite fill_none_lookup.
  destruct (row !! i) as [v|] eqn:Hv.
  - rewrite decide_False.
    + by apply (zip_cells_lookup _ _ _ i).
    + intros (j & Hj)%list_elem_of_lookup_1. rewrite lookup_drop in Hj.
      pose proof (NoDup_lookup _ _ _ _ Hnd Hi Hj) as ->.
      apply lookup_lt_Some in Hv. lia.
  - rewrite decide_True; [done|].
    apply lookup_ge_None in Hv. apply list_elem_of_lookup.
    exists (i - length row)%nat. rewrite lookup_drop, <- Hi. f_equal. lia.
Qed.

(** X11. For a header without repeated names, an entry is made from the
    cells of the record at the positions of the three mapped headers,
    wherever these stand: the name is the cell of the name column
    stripped, price and weight are the numbers read from their stripped
    cells, and a cell past the end of the record counts as [None]. *)
Theorem X11_entry_from_cells_at_header_positions file fieldnames row
    (i j k : nat) (hn hp hw : str) :
  NoDup fieldnames →
  resolve_columns fieldnames !! lit "name" = Some hn →
  resolve_columns fieldnames !! lit "price" = Some hp →
  resolve_columns fieldnames !! lit "weight" = Some hw →
  fieldnames !! i = Some hn → fieldnames !! j = Some hp →
  fieldnames !! k = Some hw →
  make_entry file (resolve_columns fieldnames) (row_dict fieldnames row)
  = (name ← cell_strip (cell_at row i);
     s ← cell_strip (cell_at row j);
     price ← float_of_str s;
     s ← cell_strip (cell_at row k);
     weight ← float_of_str s;
     price_per_kg ← truediv price weight;
     Ok (Entry name price weight file price_per_kg)).
Proof.
  intros Hnd Hn Hp Hw Hi Hj Hk. unfold make_entry, getitem.
  rewrite Hn, Hp, Hw. cbn [mbind result_bind].
  rewrite (row_dict_lookup _ _ i hn Hnd Hi).
  rewrite (row_dict_lookup _ _ j hp Hnd Hj).
  by rewrite (row_dict_lookup _ _ k hw Hnd Hk).
Qed.

(** ** Queries *)

Lemma contains_trans (s t u : str) :
  contains s t = true → contains t u = true → contains s u = true.
Proof.
  rewrite !contains_spec.
  intros (p1 & q1 & ->) (p2 & q2 & ->).
  exists (p1 ++ p2), (q2 ++ q1). by rewrite <- !app_assoc.
Qed.

Lemma filter_sublist_impl {A} (f g : A → bool) (l : list A) :
  (∀ x, f x = true → g x = true) →
  List.filter f l `sublist_of` List.filter g l.
Proof.
  intros Hfg. induction l as [|x l IH]; simpl; [done|].
  destruct (f x) eqn:Hf.
  - rewrite (Hfg x Hf). by constructor.
  - destruct (g x); [by constructor|done].
Qed.

(** X12. A longer query narrows the answer: when the lower-cased query
    [q1] occurs in the lower-cased query [q2], every entry [find_text]
    returns for [q2] it returns for [q1] as well, as many times. *)
Theorem X12_longer_query_narrows (self : PriceAnalyzer) (q1 q2 : str) :
  contains (lower q2) (lower q1) = true →
  (find_text self q2).1 ⊆+ (find_text self q1).1.
Proof.
  intros Hq. rewrite !find_text_perm. apply sublist_submseteq.
  apply filter_sublist_impl. intros x Hx. unfold matches in *.
  by eapply contains_trans.
Qed.

(** X13. Letter case of a Cyrillic query plays no part: a query written
    in the capital letters from А to Я gives what the same query in
    small letters gives. *)
Theorem X13_capital_cyrillic_query (self : PriceAnalyzer) (query : str) :
  Forall (λ c, 0x410 ≤ c ≤ 0x42F)%N query →
  find_text self query = find_text self ((λ c, c + 0x20)%N <$> query).
Proof.
  intros Hq. apply find_text_lower.
  assert (Forall (λ d, plain_letter d = true) ((λ c, c + 0x20)%N <$> query))
    as Hplain.
  { apply Forall_fmap. eapply Forall_impl; [exact Hq|]. intros c Hc.
    cbv beta in *. unfold compose. apply plain_letter_cases. left. lia. }
  rewrite (proj2 (lower_spells _ _ Hplain)).
  - symmetry. apply (lower_spells _ _ Hplain).
    apply Forall2_same_length_lookup_2; [done|].
    intros i c d Hc Hd. left. congruence.
  - apply Forall2_fmap_r, Forall_Forall2_diag.
    eapply Forall_impl; [exact Hq|]. intros c _. by right.
Qed.

Lemma filter_all {A} (f : A → bool) (l : list A) :
  Forall (λ x, f x = true) l → List.filter f l = l.
Proof. induction 1 as [|x l Hx _ IH]; simpl; [done|]. by rewrite Hx, IH. Qed.

Lemma no_nan_filter {A} (key : A → float) (f : A → bool) (l : list A) :
  no_nan key l = true → no_nan key (List.filter f l) = true.
Proof.
  unfold no_nan. rewrite !forallb_forall.
  intros H x [Hx _]%filter_In. by apply H.
Qed.

(** X14. Searching within an answer gives the answer back: when no
    [price_per_kg] of the catalog is NaN, [find_text] run with the same
    query on the list it returned returns that list unchanged. *)
Theorem X14_search_in_answer_is_fixed (self : PriceAnalyzer) (query : str) :
  no_nan price_per_kg (data self) = true →
  (find_text {| folder_path := folder_path self;
                data := (find_text self query).1 |} query).1
  = (find_text self query).1.
Proof.
  intros Hnan. unfold find_text at 1. cbn [fst data].
  rewrite filter_all.
  - apply sorted_run. unfold find_text. cbn [fst].
    by apply StronglySorted_Sorted, sorted_in_order, no_nan_filter.
  - apply Forall_forall. intros x Hx. rewrite find_text_perm in Hx.
    by apply list_elem_of_In, filter_In in Hx as [_ Hx].
Qed.

(** X15. When no [price_per_kg] of the catalog is NaN, the answer of
    [find_text] is the only list that holds the matching entries, is in
    ascending order of [price_per_kg] and keeps entries of equal
    [price_per_kg] in catalog order. *)
Theorem X15_answer_is_the_stable_sort (self : PriceAnalyzer) (query : str)
    (l : list entry) :
  no_nan price_per_kg (data self) = true →
  l ≡ₚ List.filter (matches query) (data self) →
  ascending price_per_kg l →
  (∀ k, tied price_per_kg k l
        = tied price_per_kg k (List.filter (matches query) (data self))) →
  l = (find_text self query).1.
Proof.
  intros Hnan Hp Ha Ht. apply sorted_unique; [|done|done|done].
  by apply no_nan_filter.
Qed.

(** ** The page *)

Lemma write_rows_app (number : Z) (data : list entry) (out : str) :
  write_rows number data out = out ++ table_rows number data.
Proof.
  unfold table_rows. revert number out.
  induction data as [|x data IH]; intros number out; cbn [write_rows].
  { by rewrite app_nil_r. }
  rewrite IH, imap_cons, <- app_assoc. cbn [concat].
  change (Z.of_nat 0) with 0%Z. rewrite Z.add_0_r. do 3 f_equal.
  apply imap_ext. intros i y _. unfold compose. f_equal. lia.
Qed.

Lemma document_rows (data : list entry) :
  document data = page_head ++ table_rows 1 data ++ page_foot.
Proof. unfold document. by rewrite write_rows_app, <- app_assoc. Qed.

Lemma table_rows_app (number : Z) (data more : list entry) :
  table_rows number (data ++ more)
  = table_rows number data
    ++ table_rows (number + Z.of_nat (length data)) more.
Proof.
  unfold table_rows. rewrite imap_app, concat_app. do 2 f_equal.
  apply imap_ext. intros i y _. f_equal. lia.
Qed.

(** X16. The page holds, between the head and the foot, one row per
    entry of the catalog, in catalog order and numbered from 1; the rows
    of a catalog continued by further entries are the rows of the
    catalog followed by the rows of these entries, numbered on. *)
Theorem X16_page_rows_follow_catalog (data more : list entry) :
  document data = page_head ++ table_rows 1 data ++ page_foot ∧
  table_rows 1 (data ++ more)
  = table_rows 1 data ++ table_rows (1 + Z.of_nat (length data)) more.
Proof. split; [apply document_rows|apply table_rows_app]. Qed.

Lemma table_row_name (number : Z) (x : entry) :
  ∃ pre post,
    table_row number x = pre ++ lit "<td>" ++ name x ++ lit "</td>" ++ post.
Proof.
  exists (concat [nl; lit "                    <tr>"; nl;
                  lit "                        <td>"; str_of_int number;
                  lit "</td>"; nl; lit "                        "]).
  eexists (concat [nl; lit "                        <td>";
                   repr_float (price x); lit "</td>"; nl;
                   lit "                        <td>";
                   repr_float (weight x); lit "</td>"; nl;
                   lit "                        <td>"; file x; lit "</td>";
                   nl; lit "                        <td>";
                   format_2f (price_per_kg x); lit "</td>"; nl;
                   lit "                    </tr>"; nl;
                   lit "                "]).
  unfold table_row. cbn [concat]. rewrite <- !app_assoc. reflexivity.
Qed.

(** X17. Names enter the page as they are: for every entry of the
    catalog the page holds a cell whose text is the name of the entry,
    code point by code point, whatever these are. *)
Theorem X17_page_holds_names_verbatim (data : list entry) (x : entry) :
  x ∈ data →
  ∃ pre post,
    document data = pre ++ lit "<td>" ++ name x ++ lit "</td>" ++ post.
Proof.
  intros (l1 & l2 & ->)%list_elem_of_split.
  rewrite document_rows, table_rows_app. unfold table_rows at 2. rewrite imap_cons. cbn [concat].
  destruct (table_row_name (1 + Z.of_nat (length l1) + Z.of_nat 0) x)
    as (pre & post & ->).
  exists (page_head ++ table_rows 1 l1 ++ pre). eexists.
  rewrite <- !app_assoc. reflexivity.
Qed.

(** *** What can be written *)

(** The text of a number is made of ASCII characters. *)
Lemma forallb_concat {A} (p : A → bool) (ls : list (list A)) :
  forallb p (concat ls) = forallb (forallb p) ls.
Proof.
  induction ls as [|l ls IH]; [done|].
  cbn [concat forallb]. by rewrite forallb_app, IH.
Qed.

Lemma uint_digits_encodable (u : Decimal.uint) :
  forallb encodable (uint_digits u) = true.
Proof. induction u; by cbn [uint_digits forallb]; rewrite ?IHu. Qed.

Lemma nat_digits_encodable (n : Z) : forallb encodable (nat_digits n) = true.
Proof. apply uint_digits_encodable. Qed.

Lemma str_of_int_encodable (n : Z) : forallb encodable (str_of_int n) = true.
Proof.
  unfold str_of_int. destruct (n <? 0)%Z; [|apply nat_digits_encodable].
  cbn [forallb]. by rewrite nat_digits_encodable.
Qed.

Lemma sign_text_encodable (s : bool) : forallb encodable (sign_text s) = true.
Proof. by destruct s. Qed.

Lemma zeros_encodable (n : Z) : forallb encodable (zeros n) = true.
Proof.
  unfold zeros. induction (Z.to_nat n) as [|k IH]; [done|].
  cbn [repeat forallb]. by rewrite IH.
Qed.

Lemma forallb_take_drop {A} (p : A → bool) (n : nat) (l : list A) :
  forallb p l = true →
  forallb p (take n l) = true ∧ forallb p (drop n l) = true.
Proof.
  intros H. rewrite <- (take_drop n l), forallb_app in H.
  by apply andb_true_iff in H.
Qed.

Lemma repr_digits_encodable (m : positive) (e : Z) :
  forallb encodable (repr_digits m e).1 = true.
Proof.
  unfold repr_digits. destruct (fraction m e) as [num den].
  destruct (shortest _ _ _ _ _) as [d s]. destruct (strip_zeros _ _ _) as [d' s'].
  apply nat_digits_encodable.
Qed.

Lemma repr_finite_encodable (m : positive) (e : Z) :
  forallb encodable (repr_finite m e) = true.
Proof.
  unfold repr_finite. pose proof (repr_digits_encodable m e) as Hds.
  destruct (repr_digits m e) as [ds decpt]. cbn [fst] in Hds.
  destruct (_ || _).
  - destruct ds as [|d1 rest]; [done|].
    cbn [forallb] in Hds. apply andb_true_iff in Hds as [Hd1 Hrest].
    cbn [forallb]. rewrite Hd1, forallb_app. cbn [forallb andb].
    assert (forallb encodable (exponent_text (decpt - 1)) = true) as ->.
    { unfold exponent_text. cbn [forallb].
      destruct (_ <? 0)%Z, (_ <? 10)%Z; cbn [forallb];
        by rewrite nat_digits_encodable. }
    destruct rest; [done|]. cbn [forallb]. cbn [forallb] in Hrest.
    by rewrite Hrest.
  - destruct (decpt <=? 0)%Z.
    { rewrite !forallb_app, zeros_encodable, Hds. by vm_compute. }
    destruct (_ <=? decpt)%Z.
    { rewrite !forallb_app, zeros_encodable, Hds. by vm_compute. }
    destruct (forallb_take_drop encodable (Z.to_nat decpt) ds Hds) as [Ht Hd].
    rewrite forallb_app. cbn [forallb]. by rewrite Ht, Hd.
Qed.

Lemma repr_float_encodable (x : float) :
  forallb encodable (repr_float x) = true.
Proof.
  destruct x as [s|s| |s m e]; cbn [repr_float];
    rewrite ?forallb_app, ?sign_text_encodable, ?repr_finite_encodable;
    by vm_compute.
Qed.

Lemma format_2f_encodable (x : float) :
  forallb encodable (format_2f x) = true.
Proof.
  destruct x as [s|s| |s m e]; cbn [format_2f];
    rewrite ?forallb_app, ?sign_text_encodable; try by vm_compute.
  destruct (fraction m e) as [num den].
  rewrite forallb_app, sign_text_encodable, forallb_app. cbn [forallb].
  by rewrite forallb_app, !nat_digits_encodable.
Qed.

(** A row of the table can be encoded when the name and the file name
    of its entry can: the numbers are no obstacle. *)
Lemma encodable_surrogate (c : N) : encodable c = negb (surrogate c).
Proof.
  unfold encodable, surrogate, between.
  destruct (N.ltb_spec c 0xD800), (N.ltb_spec 0xDFFF c),
    (N.leb_spec 0xD800 c), (N.leb_spec c 0xDFFF); try done; lia.
Qed.

Lemma forallb_encodable (s : str) :
  forallb (λ c, negb (surrogate c)) s = forallb encodable s.
Proof.
  induction s as [|c s IH]; [done|].
  cbn [forallb]. by rewrite IH, encodable_surrogate.
Qed.

Lemma table_row_encodable (number : Z) (x : entry) :
  forallb encodable (table_row number x) = printable x.
Proof.
  unfold table_row, printable. rewrite forallb_app, !forallb_encodable.
  rewrite forallb_concat. cbn [forallb].
  rewrite str_of_int_encodable, !repr_float_encodable, format_2f_encodable.
  repeat match goal with
  | |- context [forallb encodable (lit ?t)] =>
      change (forallb encodable (lit t)) with true
  end.
  change (forallb encodable nl) with true. cbn [andb].
  by rewrite andb_true_r.
Qed.

Lemma table_rows_cons (number : Z) (x : entry) (data : list entry) :
  table_rows number (x :: data)
  = table_row number x ++ table_rows (number + 1) data.
Proof.
  change (x :: data) with ([x] ++ data). rewrite table_rows_app.
  unfold table_rows at 1. cbn [imap concat length].
  change (Z.of_nat 0) with 0%Z. change (Z.of_nat 1) with 1%Z.
  by rewrite Z.add_0_r, app_nil_r.
Qed.

Lemma write_table_written (number : Z) (data : list entry) (out : str) :
  write_table number data out
  = if forallb printable data then (out ++ table_rows number data, None)
    else (out ++ table_rows number (printable_prefix data), Some ValueError).
Proof.
  revert number out. induction data as [|x data IH]; intros number out.
  { cbn. by rewrite app_nil_r. }
  cbn [write_table forallb printable_prefix]. unfold write.
  rewrite table_row_encodable. destruct (printable x); cbn [andb].
  - rewrite IH, !table_rows_cons, <- !app_assoc. by destruct (forallb _ _).
  - by rewrite app_nil_r.
Qed.

Lemma write_page_written (data : list entry) :
  write_page data = page_written data.
Proof.
  unfold write_page, page_written, write.
  change (forallb encodable page_head) with true. cbn [app].
  rewrite write_table_written. destruct (forallb printable data); [|done].
  change (forallb encodable page_foot) with true. cbn iota.
  by rewrite document_rows, <- app_assoc.
Qed.

Lemma export_to_html_written (open_w : str → result unit)
    (files : gmap str str) (self : PriceAnalyzer) (fname : str) :
  export_to_html open_w files self fname
  = match open_w fname with
    | Raise e => (files, self, Some e)
    | Ok _ =>
        (<[fname := (page_written (data self)).1]> files, self,
         (page_written (data self)).2)
    end.
Proof.
  unfold export_to_html. destruct (open_w fname); [|done].
  rewrite write_page_written. by destruct (page_written _).
Qed.

(** X18. When the file can be opened and no name and no file name of
    the catalog holds a surrogate, [export_to_html] returns and leaves
    the whole page of the catalog in the file; otherwise the [write] of
    the first entry that holds a surrogate raises [UnicodeEncodeError]
    and the file is left with the head of the page and the rows of the
    entries before that one.  The numbers of an entry never stand in the
    way, no other file is touched and the analyzer is as before. *)
Theorem X18_export_writes_page_or_prefix (open_w : str → result unit)
    (files : gmap str str) (self : PriceAnalyzer) (fname : str) :
  open_w fname = Ok () →
  export_to_html open_w files self fname
  = (<[fname := if forallb printable (data self) then document (data self)
                else page_head ++ table_rows 1 (printable_prefix (data self))]>
       files,
     self,
     if forallb printable (data self) then None else Some ValueError).
Proof.
  intros Hopen. rewrite export_to_html_written, Hopen. unfold page_written.
  by destruct (forallb printable (data self)).
Qed.

(** ** Two decimals *)

Section TwoDecimals.
Local Open Scope Z_scope.

Lemma div_nearest_even_spec (num den : Z) :
  0 < den → 0 ≤ num →
  0 ≤ div_nearest_even num den ∧
  2 * Z.abs (num - div_nearest_even num den * den) ≤ den.
Proof.
  intros Hden Hnum. unfold div_nearest_even.
  pose proof (Z_div_mod num den ltac:(lia)) as Hdm.
  destruct (Z.div_eucl num den) as [q r]. destruct Hdm as [-> Hr].
  assert (0 ≤ q) by nia.
  destruct (Z.compare_spec (2 * r) den); [destruct (Z.even q)| |]; split; nia.
Qed.

Lemma fraction_pos (m : positive) (e : Z) :
  0 < (fraction m e).1 ∧ 0 < (fraction m e).2.
Proof.
  unfold fraction. destruct (0 <=? e) eqn:He; simpl.
  - apply Z.leb_le in He. split; [|lia].
    apply Z.mul_pos_pos; [lia|]. by apply Z.pow_pos_nonneg.
  - apply Z.leb_gt in He. split; [lia|]. apply Z.pow_pos_nonneg; lia.
Qed.

Lemma nat_digits_digit (d : Z) :
  0 ≤ d < 10 → nat_digits d = [(48 + Z.to_N d)%N].
Proof.
  intros Hd.
  assert (d = 0 ∨ d = 1 ∨ d = 2 ∨ d = 3 ∨ d = 4 ∨ d = 5 ∨ d = 6 ∨ d = 7
          ∨ d = 8 ∨ d = 9) as Hcases by lia.
  by repeat destruct Hcases as [->|Hcases]; try subst d.
Qed.

(** X19. A finite [price_per_kg] is shown with exactly two digits after
    the point, and the number shown, [n] hundredths, is the multiple of
    0.01 nearest to the value: they differ by 0.005 at most. *)
Theorem X19_two_decimals_are_nearest (s : bool) (m : positive) (e : Z) :
  ∃ n d1 d2 : Z,
    format_2f (S754_finite s m e)
    = sign_text s ++ nat_digits (n / 100)
        ++ [46%N; (48 + Z.to_N d1)%N; (48 + Z.to_N d2)%N] ∧
    0 ≤ d1 < 10 ∧ 0 ≤ d2 < 10 ∧ n = 100 * (n / 100) + 10 * d1 + d2 ∧
    0 ≤ n ∧
    2 * Z.abs (100 * (fraction m e).1 - n * (fraction m e).2)
    ≤ (fraction m e).2.
Proof.
  unfold format_2f.
  destruct (fraction_pos m e) as [Hnum Hden].
  destruct (fraction m e) as [num den]. simpl in *.
  destruct (div_nearest_even_spec (100 * num) den) as [Hn Hnear];
    [lia|lia|].
  set (n := div_nearest_even (100 * num) den) in *.
  exists n, (n mod 100 / 10), (n mod 100 mod 10).
  pose proof (Z.mod_pos_bound n 100 ltac:(lia)) as Hfrac.
  pose proof (Z.mod_pos_bound (n mod 100) 10 ltac:(lia)) as Hd2.
  assert (0 ≤ n mod 100 / 10 < 10) as Hd1.
  { split; [apply Z.div_pos; lia|]. apply Z.div_lt_upper_bound; lia. }
  split.
  { by rewrite (nat_digits_digit _ Hd1), (nat_digits_digit _ Hd2). }
  split; [done|]. split; [lia|]. split; [|done].
  pose proof (Z.div_mod n 100 ltac:(lia)).
  pose proof (Z.div_mod (n mod 100) 10 ltac:(lia)). lia.
Qed.

End TwoDecimals.

(** ** The dialogue *)

Section Dialogue.
Variable tabulate : list (list value) → list str → str.

Lemma answer_self (self : PriceAnalyzer) (query : str) :
  (answer tabulate self query).2 = self.
Proof. unfold answer, find_text. by destruct (sorted _ _). Qed.

Lemma search_loop_self (self : PriceAnalyzer) (stdin : list str)
    (out : list event) :
  (search_loop tabulate self stdin out).2 = self.
Proof.
  revert out. induction stdin as [|line stdin IH]; intros out; [done|].
  cbn [search_loop]. destruct (is_exit line); [done|].
  pose proof (answer_self self (strip line)) as Ha.
  destruct (answer tabulate self (strip line)) as [ev s']. simpl in Ha.
  subst s'. apply IH.
Qed.




End Dialogue.

(** X22. The lines that end the dialogue are the four letters of [exit],
    each in either letter case, with any whitespace around them, and no
    others. *)
Theorem X22_exit_in_any_letter_case (line : str) :
  is_exit line = true ↔
  ∃ a b c d : N,
    strip line = [a; b; c; d] ∧
    (a = 69 ∨ a = 101)%N ∧ (b = 88 ∨ b = 120)%N ∧
    (c = 73 ∨ c = 105)%N ∧ (d = 84 ∨ d = 116)%N.
Proof.
  unfold is_exit, str_eqb. rewrite bool_decide_eq_true.
  change (lit "exit") with [101; 120; 105; 116]%N.
  rewrite lower_spells by (repeat constructor). unfold spells. split.
  - intros H.
    repeat match goal with
    | H : Forall2 _ _ (_ :: _) |- _ =>
        apply Forall2_cons_inv_r in H as (? & ? & ? & H & ?)
    | H : Forall2 _ _ [] |- _ => apply Forall2_nil_inv_r in H
    end.
    subst. do 4 eexists. split; [done|]. unfold either_case in *.
    split_and!; lia.
  - intros (a & b & c & d & -> & Ha & Hb & Hc & Hd).
    repeat (constructor; [unfold either_case; lia|]). constructor.
Qed.

(** ** The program *)

(** X23. When the directory can be listed, the page can be opened and
    the names and file names of the entries the candidate files give can
    all be encoded, the program writes the whole page of the catalog
    [load_prices] has left to [output.html] and then holds the dialogue
    over this same catalog; the state after the dialogue is the state
    after loading. *)
Theorem X23_program_exports_then_searches
    (tabulate : list (list value) → list str → str) (fs : filesystem)
    (open_w : str → result unit) (files : gmap str str)
    (stdin listing : list str) :
  listdir fs Main.folder = Ok listing →
  open_w default_fname = Ok () →
  forallb printable
    (concat (file_entries fs Main.folder <$> candidates listing)) = true →
  ∃ st',
    load_prices fs (start Main.folder) = Ok st' ∧
    data (self st')
    = concat (file_entries fs Main.folder <$> candidates listing) ∧
    Main.main tabulate fs open_w files stdin
    = Main.Run
        (Main.Searched (interactive_search tabulate (self st') stdin).1.2)
        st'
        (<[default_fname := document (data (self st'))]> files)
        (interactive_search tabulate (self st') stdin).1.1.1
        (interactive_search tabulate (self st') stdin).1.1.2.
Proof.
  intros Hls Hopen Hprint.
  destruct (load_prices_grow fs (start Main.folder) listing Hls)
    as (new & logged & Hload & Hnew & _).
  eexists. split; [exact Hload|]. split; [exact Hnew|].
  unfold Main.main. rewrite Hload, export_to_html_written, Hopen.
  set (st' := grow _ _ _ _).
  assert (data (self st') = new) as Hdata by done.
  assert (forallb printable new = true) as Hnew' by (by rewrite Hnew).
  unfold page_written. rewrite Hdata, Hnew'. cbn [fst snd].
  assert ((interactive_search tabulate (self st') stdin).2 = self st')
    as Hself by apply search_loop_self.
  destruct (interactive_search tabulate (self st') stdin)
    as [[[out unread] how] analyzer].
  simpl in Hself. subst analyzer. cbn [fst snd]. by subst st'.
Qed.

(** X24. The dialogue is held only after a complete export: whenever
    the program has printed anything or read a line of input, the
    directory was listed, [output.html] was opened, the name and the file
    name of every entry of the catalog could be encoded, and
    [output.html] holds the whole page of the catalog, no other file
    being changed.  So after a failure of the listing, of [open] or of a
    [write], no prompt is shown and no input is read. *)
Theorem X24_dialogue_only_after_export
    (tabulate : list (list value) → list str → str) (fs : filesystem)
    (open_w : str → result unit) (files : gmap str str)
    (stdin : list str) :
  Main.printed (Main.main tabulate fs open_w files stdin) ≠ [] ∨
  Main.unread (Main.main tabulate fs open_w files stdin) ≠ stdin →
  ∃ st' how,
    load_prices fs (start Main.folder) = Ok st' ∧
    open_w default_fname = Ok () ∧
    forallb printable (data (self st')) = true ∧
    Main.halted (Main.main tabulate fs open_w files stdin)
    = Main.Searched how ∧
    Main.final (Main.main tabulate fs open_w files stdin) = st' ∧
    Main.written (Main.main tabulate fs open_w files stdin)
    = <[default_fname := document (data (self st'))]> files.
Proof.
  unfold Main.main.
  destruct (load_prices fs (start Main.folder)) as [st'|e];
    [|by intros [?|?]].
  rewrite export_to_html_written.
  destruct (open_w default_fname) as [[]|e]; [|by intros [?|?]].
  unfold page_written.
  destruct (forallb printable (data (self st'))) eqn:Hprint;
    [|by intros [?|?]].
  cbn [fst snd]. intros _.
  assert ((interactive_search tabulate (self st') stdin).2 = self st')
    as Hself by apply search_loop_self.
  destruct (interactive_search tabulate (self st') stdin)
    as [[[out unread] how] analyzer].
  simpl in Hself. subst analyzer. exists st', how.
  cbn [Main.halted Main.final Main.written].
  split_and!; try done. by destruct st' as [[]].
Qed.

(** ** The further statements at sample inputs *)

Lemma X1_witness :
  ∃ st', load_prices Demo.fs_shop (start Demo.folder) = Ok st' ∧
    folder_path (self st') = folder_path (self (start Demo.folder)) ∧
    data (self st')
    = data (self (start Demo.folder))
      ++ concat (file_entries Demo.fs_shop
                   (folder_path (self (start Demo.folder)))
                   <$> candidates [lit "price_1.csv"; lit "Price1.csv";
                                   lit "price_2.csv"; lit "notes.txt"]) ∧
    log (start Demo.folder) `prefix_of` log st'.
Proof.
  apply (X1_load_prices_appends_file_by_file Demo.fs_shop (start Demo.folder)).
  by vm_compute.
Defined.

Lemma X2_witness :
  ∃ new,
    data (self (Demo.loaded Demo.fs_shop))
    = data (self (start Demo.folder)) ++ new ∧
    data (self Samples.reloaded)
    = data (self (start Demo.folder)) ++ new ++ new.
Proof.
  apply (X2_load_prices_twice_appends_twice Demo.fs_shop (start Demo.folder));
    by vm_compute.
Defined.

Lemma X3_witness :
  ∃ st' new, load_prices Samples.fs_odd (start Demo.folder) = Ok st' ∧
    data (self st') = data (self (start Demo.folder)) ++ new ∧
    Forall (λ x, PA.file x ≠ lit "price_locked.csv") new ∧
    data (self st')
    = data (self (load_files Samples.fs_odd
                    (List.filter
                       (λ f, negb (str_eqb f (lit "price_locked.csv")))
                       (candidates [lit "price_locked.csv";
                                    lit "price_empty.csv";
                                    lit "price_1.csv"]))
                    (start Demo.folder))) ∧
    Error_file (lit "price_locked.csv") OSError ∈ log st'.
Proof.
  apply (X3_unopenable_file_is_skipped Samples.fs_odd (start Demo.folder)).
  - by vm_compute.
  - apply (bool_decide_unpack _). by vm_compute.
  - by vm_compute.
Defined.

Lemma X4_witness :
  ∃ st' new, load_prices Samples.fs_odd (start Demo.folder) = Ok st' ∧
    data (self st') = data (self (start Demo.folder)) ++ new ∧
    Forall (λ x, PA.file x ≠ lit "price_empty.csv") new ∧
    data (self st')
    = data (self (load_files Samples.fs_odd
                    (List.filter
                       (λ f, negb (str_eqb f (lit "price_empty.csv")))
                       (candidates [lit "price_locked.csv";
                                    lit "price_empty.csv";
                                    lit "price_1.csv"]))
                    (start Demo.folder))) ∧
    Error_file (lit "price_empty.csv") TypeError ∈ log st'.
Proof.
  apply (X4_empty_file_is_skipped Samples.fs_odd (start Demo.folder)).
  - by vm_compute.
  - apply (bool_decide_unpack _). by vm_compute.
  - by vm_compute.
Defined.

Lemma X5_witness :
  load_rows (lit "price_1.csv") Samples.columns
    [Samples.row_milk; Samples.row_cheese; Samples.row_butter]
    (Some ValueError) (start Demo.folder)
  = (grow (start Demo.folder)
       (omap (row_entry (lit "price_1.csv") Samples.columns)
          [Samples.row_milk; Samples.row_cheese; Samples.row_butter])
       (omap (row_error (lit "price_1.csv") Samples.columns)
          [Samples.row_milk; Samples.row_cheese; Samples.row_butter])
       [], Some ValueError).
Proof.
  apply (X5_caught_rows_are_skipped_and_logged (lit "price_1.csv")
           Samples.columns).
  repeat (constructor; [vm_compute; tauto|]). constructor.
Defined.

Lemma X6_witness :
  load_rows (lit "price_1.csv") Samples.columns
    ([Samples.row_milk; Samples.row_cheese]
       ++ Samples.row_zero :: [Samples.row_butter])
    None (start Demo.folder)
  = (grow (start Demo.folder)
       (omap (row_entry (lit "price_1.csv") Samples.columns)
          [Samples.row_milk; Samples.row_cheese])
       (omap (row_error (lit "price_1.csv") Samples.columns)
          [Samples.row_milk; Samples.row_cheese])
       [], Some ZeroDivisionError).
Proof.
  apply (X6_uncaught_row_error_ends_loop (lit "price_1.csv") Samples.columns).
  - repeat (constructor; [vm_compute; tauto|]). constructor.
  - by vm_compute.
  - by vm_compute.
Defined.

Lemma X7_witness :
  ∃ listing new,
    listdir Demo.fs_shop (folder_path (self (start Demo.folder)))
    = Ok listing ∧
    data (self (Demo.loaded Demo.fs_shop))
    = data (self (start Demo.folder)) ++ new ∧
    Forall (λ x, PA.file x ∈ candidates listing ∧
                 (∀ c, head (name x) = Some c → isspace c = false) ∧
                 (∀ c, last (name x) = Some c → isspace c = false)) new.
Proof.
  apply (X7_entries_name_their_file Demo.fs_shop (start Demo.folder)).
  by vm_compute.
Defined.

Lemma X9_witness :
  lit "Цена" ∈ Demo.header ∧
  column_mapping !! lower (lit "Цена") = Some (lit "price") ∧
  lit "price" ∈ required_columns.
Proof.
  apply (X9_resolved_header_is_a_synonym Demo.header). by vm_compute.
Defined.

Lemma X10_witness :
  make_entry (lit "price_1.csv") Samples.columns Samples.row_butter
  = make_entry (lit "price_1.csv") Samples.columns Samples.row_butter_wide.
Proof.
  apply (X10_make_entry_reads_mapped_cells (lit "price_1.csv")
           Samples.columns).
  intros c h Hc Hh.
  repeat (apply elem_of_cons in Hc as [->|Hc]);
    [| | |by apply elem_of_nil in Hc];
    vm_compute in Hh; injection Hh as <-; by vm_compute.
Defined.

Lemma X11_witness :
  make_entry (lit "price_1.csv") (resolve_columns Demo.header)
    (row_dict Demo.header [lit "Масло"; lit "200"; lit "0.5"])
  = (name ← cell_strip (cell_at [lit "Масло"; lit "200"; lit "0.5"] 0);
     s ← cell_strip (cell_at [lit "Масло"; lit "200"; lit "0.5"] 1);
     price ← float_of_str s;
     s ← cell_strip (cell_at [lit "Масло"; lit "200"; lit "0.5"] 2);
     weight ← float_of_str s;
     price_per_kg ← truediv price weight;
     Ok (Entry name price weight (lit "price_1.csv") price_per_kg)).
Proof.
  apply (X11_entry_from_cells_at_header_positions (lit "price_1.csv")
           Demo.header _ 0 1 2 (lit "Название") (lit "Цена") (lit "Фасовка")).
  - apply (bool_decide_unpack _). by vm_compute.
  - by vm_compute.
  - by vm_compute.
  - by vm_compute.
  - by vm_compute.
  - by vm_compute.
  - by vm_compute.
Defined.

Lemma X12_witness :
  (find_text Samples.shop (lit "Моло")).1
  ⊆+ (find_text Samples.shop (lit "мол")).1.
Proof.
  apply (X12_longer_query_narrows Samples.shop). by vm_compute.
Defined.

Lemma X13_witness :
  find_text Samples.shop (lit "МОЛОК")
  = find_text Samples.shop ((λ c, c + 0x20)%N <$> lit "МОЛОК").
Proof.
  apply (X13_capital_cyrillic_query Samples.shop).
  repeat (constructor; [by vm_compute|]). constructor.
Defined.

Lemma X14_witness :
  (find_text {| folder_path := folder_path Samples.shop;
                data := (find_text Samples.shop (lit "моло")).1 |}
     (lit "моло")).1
  = (find_text Samples.shop (lit "моло")).1.
Proof.
  apply (X14_search_in_answer_is_fixed Samples.shop). by vm_compute.
Defined.

Lemma X15_witness :
  [Demo.milk_base; Demo.milk] = (find_text Samples.shop (lit "моло")).1.
Proof.
  apply (X15_answer_is_the_stable_sort Samples.shop).
  - by vm_compute.
  - vm_compute. apply Permutation_swap.
  - vm_compute. repeat constructor.
  - intros k.
    replace [Demo.milk_base; Demo.milk]
      with (sorted price_per_kg
              (List.filter (matches (lit "моло")) (data Samples.shop)))
      by (by vm_compute).
    apply sorted_stable.
Defined.

Lemma X17_witness :
  ∃ pre post,
    document [Demo.milk; Demo.butter]
    = pre ++ lit "<td>" ++ name Demo.butter ++ lit "</td>" ++ post.
Proof.
  apply (X17_page_holds_names_verbatim [Demo.milk; Demo.butter]).
  right. left.
Defined.

Lemma X18_witness :
  export_to_html Samples.always_opens ∅
    (self (Demo.loaded Samples.fs_odd_name)) default_fname
  = (<[default_fname :=
         if forallb printable (data (self (Demo.loaded Samples.fs_odd_name)))
         then document (data (self (Demo.loaded Samples.fs_odd_name)))
         else page_head
              ++ table_rows 1
                   (printable_prefix
                      (data (self (Demo.loaded Samples.fs_odd_name))))]> ∅,
     self (Demo.loaded Samples.fs_odd_name),
     if forallb printable (data (self (Demo.loaded Samples.fs_odd_name)))
     then None else Some ValueError).
Proof.
  by apply (X18_export_writes_page_or_prefix Samples.always_opens ∅
              (self (Demo.loaded Samples.fs_odd_name))).
Defined.



Lemma X23_witness :
  ∃ st',
    load_prices Demo.fs_shop (start Main.folder) = Ok st' ∧
    data (self st')
    = concat (file_entries Demo.fs_shop Main.folder
                <$> candidates [lit "price_1.csv"; lit "Price1.csv";
                                lit "price_2.csv"; lit "notes.txt"]) ∧
    Main.main Samples.count_rows Demo.fs_shop Samples.always_opens ∅
      [lit "мол"; lit "exit"]
    = Main.Run
        (Main.Searched
           (interactive_search Samples.count_rows (self st')
              [lit "мол"; lit "exit"]).1.2)
        st'
        (<[default_fname := document (data (self st'))]> ∅)
        (interactive_search Samples.count_rows (self st')
           [lit "мол"; lit "exit"]).1.1.1
        (interactive_search Samples.count_rows (self st')
           [lit "мол"; lit "exit"]).1.1.2.
Proof.
  apply (X23_program_exports_then_searches Samples.count_rows Demo.fs_shop
           Samples.always_opens ∅ [lit "мол"; lit "exit"]).
  - by vm_compute.
  - done.
  - by vm_compute.
Defined.

Lemma X24_witness :
  ∃ st' how,
    load_prices Demo.fs_shop (start Main.folder) = Ok st' ∧
    Samples.always_opens default_fname = Ok () ∧
    forallb printable (data (self st')) = true ∧
    Main.halted (Main.main Samples.count_rows Demo.fs_shop
                   Samples.always_opens ∅ [lit "мол"; lit "exit"])
    = Main.Searched how ∧
    Main.final (Main.main Samples.count_rows Demo.fs_shop
                  Samples.always_opens ∅ [lit "мол"; lit "exit"]) = st' ∧
    Main.written (Main.main Samples.count_rows Demo.fs_shop
                    Samples.always_opens ∅ [lit "мол"; lit "exit"])
    = <[default_fname := document (data (self st'))]> ∅.
Proof.
  apply (X24_dialogue_only_after_export Samples.count_rows Demo.fs_shop
           Samples.always_opens ∅ [lit "мол"; lit "exit"]).
  left. by vm_compute.
Defined.

(** ** Numbers as text, and a row of the page *)

Example repr_samples :
  repr_float <$> [ round_decimal false 200 0; round_decimal false 5 (-1);
                   round_decimal false 1 (-1); round_decimal true 1 16;
                   round_decimal false 12345 (-9); S754_zero true;
                   S754_infinity false ]
  = [ lit "200.0"; lit "0.5"; lit "0.1"; lit "-1e+16"; lit "1.2345e-05";
      lit "-0.0"; lit "inf" ].
Proof. by vm_compute. Qed.

Example format_2f_samples :
  format_2f <$> [ round_decimal false 400 0; round_decimal false 2675 (-3);
                  round_decimal false 125 (-3); round_decimal true 4 (-3);
                  S754_nan ]
  = [ lit "400.00"; lit "2.67"; lit "0.12"; lit "-0.00"; lit "nan" ].
Proof. by vm_compute. Qed.

Example butter_table_row :
  table_row 1 Demo.butter
  = concat [ nl; lit "                    <tr>"; nl;
             lit "                        <td>1</td>"; nl;
             lit "                        <td>Масло</td>"; nl;
             lit "                        <td>200.0</td>"; nl;
             lit "                        <td>0.5</td>"; nl;
             lit "                        <td>price_1.csv</td>"; nl;
             lit "                        <td>400.00</td>"; nl;
             lit "                    </tr>"; nl; lit "                " ].
Proof. by vm_compute. Qed.

(** ** Letter case beyond the Russian alphabet *)

Example lower_samples :
  lower <$> [ lit "ŠUNKA"; lit "Straße"; lit "ΟΔΟΣ ΟΔΟΣ"; lit "Σ"; lit "İ";
              lit "K"; lit "ЁЖ" ]
  = [ lit "šunka"; lit "straße"; lit "οδος οδος"; lit "σ";
      [0x69; 0x307]%N; lit "k"; lit "ёж" ].
Proof. by vm_compute. Qed.

Example find_ham :
  let ham (name : str) :=
    Entry name (round_decimal false 1 0) (round_decimal false 1 0)
      (lit "price_1.csv") (round_decimal false 1 0) in
  let self :=
    {| folder_path := Demo.folder;
       data := [ham (lit "Šunka"); ham (lit "ŠUNKA"); ham (lit "Sunka")] |} in
  (find_text self (lit "šunka")).1 = [ham (lit "Šunka"); ham (lit "ŠUNKA")].
Proof. by vm_compute. Qed.

(** ** A reader that fails, a name that cannot be written *)

Example broken_reader :
  data (self (Demo.loaded Samples.fs_broken)) = [Demo.milk] ∧
  log (Demo.loaded Samples.fs_broken)
  = [ Error_row (lit "price_1.csv") ValueError;
      Error_file (lit "price_1.csv") ValueError ].
Proof. by vm_compute. Qed.

Example odd_name_export :
  let run := Main.main Samples.count_rows Samples.fs_odd_name
               Samples.always_opens ∅ [lit "масло"; lit "exit"] in
  length (data (self (Main.final run))) = 3%nat ∧
  printable_prefix (data (self (Main.final run))) = [Demo.butter] ∧
  Main.halted run = Main.Export_raised ValueError ∧
  Main.written run !! default_fname
  = Some (page_head ++ table_row 1 Demo.butter) ∧
  Main.printed run = [] ∧
  Main.unread run = [lit "масло"; lit "exit"].
Proof. by vm_compute. Qed.
